(** * tabxx::CSV (csv.hpp): a shallow embedding and its verified properties

    The header-only class [tabxx::CSV] parses delimiter-separated text from a
    [std::istream] into a table (titles plus rows of [std::any] cells) and
    writes such a table to a [std::ostream].

    Layout of this development:
    - [std]    : the parts of the C++ standard library the class relies on
                 (exceptions, [std::string] members, [std::istream] state bits,
                 [std::getline], [std::stoll], [std::stod], number formatting);
    - [tabxx]  : the class itself, member function by member function;
    - lemmas about the stream primitives and the tokenizer loops;
    - the properties of the specification, one theorem per claim;
    - further properties of the class: accessors, row operations, the
      writer, type inference and the reader on whole texts. *)

From Stdlib Require Import ZArith List String Ascii Bool Lia PeanoNat.
From Stdlib Require Import SpecFloat DecimalString.
From Stdlib Require DecimalFacts DecimalPos DecimalZ.
Import ListNotations.

Open Scope string_scope.
Open Scope Z_scope.

(* ================================================================== *)
(** * The C++ standard library, as far as csv.hpp uses it              *)
(* ================================================================== *)

Module std.

(** Exceptions thrown by the class or by the library calls it makes.
    Only [runtime_error] carries a message the source spells out. *)
Inductive exception : Type :=
| runtime_error (what : string)
| out_of_range
| invalid_argument
| bad_any_cast.

(** Outcome of a call.  [Undefined] is a path on which the C++ program has no
    defined behaviour; [NoFuel] is returned by a loop of the model whose
    iteration bound ran out (see [tabxx.stream_fuel] for when that
    happens). *)
Inductive result (A : Type) : Type :=
| Ok (a : A)
| Throw (e : exception)
| Undefined
| NoFuel.

Arguments Ok {A} a.
Arguments Throw {A} e.
Arguments Undefined {A}.
Arguments NoFuel {A}.

Definition bind {A B : Type} (r : result A) (k : A -> result B) : result B :=
  match r with
  | Ok a => k a
  | Throw e => Throw e
  | Undefined => Undefined
  | NoFuel => NoFuel
  end.

(** ** Characters *)

Definition nl : ascii := "010"%char.        (* '\n' *)
Definition cr : ascii := "013"%char.        (* '\r' *)
Definition dquote : ascii := "034"%char.    (* the double quote *)

Definition endl : string := String nl "".
Definition crlf : string := String cr (String nl "").

(** ['0' <= ch && ch <= '9'] *)
Definition isdigit (ch : ascii) : bool :=
  (48 <=? nat_of_ascii ch)%nat && (nat_of_ascii ch <=? 57)%nat.

Definition isspace (ch : ascii) : bool :=
  (nat_of_ascii ch =? 32)%nat
  || ((9 <=? nat_of_ascii ch)%nat && (nat_of_ascii ch <=? 13)%nat).

Definition digit_value (ch : ascii) : Z := Z.of_nat (nat_of_ascii ch) - 48.

(** ** std::string members *)

Definition empty (s : string) : bool :=
  match s with EmptyString => true | String _ _ => false end.

Definition push_back (s : string) (ch : ascii) : string := s ++ String ch "".

(** [s.at(pos)]: bounds-checked access. *)
Definition at_ (s : string) (pos : nat) : result ascii :=
  match String.get pos s with
  | Some ch => Ok ch
  | None => Throw out_of_range
  end.

(** [s.erase(pos, n)]. *)
Definition erase (s : string) (pos n : nat) : result string :=
  if (String.length s <? pos)%nat then Throw out_of_range
  else Ok (substring 0 pos s
           ++ substring (pos + n) (String.length s - (pos + n)) s).

(** ** std::vector members *)

(** [v.at(n)]: bounds-checked access. *)
Definition vector_at {A : Type} (v : list A) (n : nat) : result A :=
  match nth_error v n with
  | Some x => Ok x
  | None => Throw out_of_range
  end.

(** ** std::istream *)

(** An input stream is the characters not yet extracted together with the
    two state bits the source can observe ([badbit] is never raised by an
    in-memory or file read that succeeds in the sense of this model). *)
Record istream : Type := mk_istream {
  buf : string;
  eofbit : bool;
  failbit : bool
}.

(** [std::istringstream iss(str)] and [std::stringstream ss(str)]. *)
Definition istringstream (str : string) : istream := mk_istream str false false.

Definition good (ins : istream) : bool := negb (eofbit ins) && negb (failbit ins).
Definition eof (ins : istream) : bool := eofbit ins.

(** [int_type]: a character, or [None] for [traits::eof()]. *)
Definition int_type : Type := option ascii.

(** [char ch = i]: narrowing of [traits::eof()] (that is, -1) gives byte 255. *)
Definition to_char (i : int_type) : ascii :=
  match i with
  | Some ch => ch
  | None => "255"%char
  end.

(** [is.get()].  A stream that is not [good] fails the sentry: [failbit] is
    raised and [eof()] returned.  Running out of characters raises both
    [eofbit] and [failbit]. *)
Definition get (ins : istream) : int_type * istream :=
  if good ins then
    match buf ins with
    | EmptyString => (None, mk_istream "" true true)
    | String ch rest => (Some ch, mk_istream rest false false)
    end
  else (None, mk_istream (buf ins) (eofbit ins) true).

(** Characters up to the first [delim].  The second component is what
    follows the delimiter, or [None] when the input ended first. *)
Fixpoint until (delim : ascii) (s : string) : string * option string :=
  match s with
  | EmptyString => (EmptyString, None)
  | String ch rest =>
      if Ascii.eqb ch delim then (EmptyString, Some rest)
      else let (l, r) := until delim rest in (String ch l, r)
  end.

(** [std::getline(is, str, delim)].  When the sentry fails, [str] is left as
    it was (it is erased only after a successful sentry).  The delimiter is
    extracted and discarded; reaching the end raises [eofbit], and [failbit]
    too when nothing at all was extracted. *)
Definition getline (ins : istream) (str : string) (delim : ascii)
  : istream * string :=
  if good ins then
    match until delim (buf ins) with
    | (l, Some rest) => (mk_istream rest false false, l)
    | (l, None) => (mk_istream "" true (empty l), l)
    end
  else (mk_istream (buf ins) (eofbit ins) true, str).

(** ** Conversions from text: std::stoll and std::stod *)

Fixpoint skip_space (s : string) : string :=
  match s with
  | String ch rest => if isspace ch then skip_space rest else s
  | EmptyString => s
  end.

Definition take_sign (s : string) : bool * string :=
  match s with
  | String ch rest =>
      if Ascii.eqb ch "-" then (true, rest)
      else if Ascii.eqb ch "+" then (false, rest)
      else (false, s)
  | EmptyString => (false, s)
  end.

(** Longest prefix of decimal digits: accumulated value, number of digits
    read, and the rest. *)
Fixpoint take_digits (s : string) (acc : Z) (n : nat) : Z * nat * string :=
  match s with
  | String ch rest =>
      if isdigit ch then take_digits rest (10 * acc + digit_value ch) (S n)
      else (acc, n, s)
  | EmptyString => (acc, n, s)
  end.

Definition LLONG_MIN : Z := - 2 ^ 63.
Definition LLONG_MAX : Z := 2 ^ 63 - 1.

(** [std::stoll(str)] (base 10): [invalid_argument] when no digit can be
    converted, [out_of_range] when the value does not fit [long long]. *)
Definition stoll (str : string) : result Z :=
  let (neg, s) := take_sign (skip_space str) in
  let '(v, n, _) := take_digits s 0 0 in
  if (n =? 0)%nat then Throw invalid_argument
  else
    let v := if neg then - v else v in
    if (LLONG_MIN <=? v) && (v <=? LLONG_MAX) then Ok v
    else Throw out_of_range.

(** IEEE-754 binary64. *)
Definition prec : Z := 53.
Definition emax : Z := 1024.
Definition double : Type := spec_float.

(** The binary64 number nearest to [m / 10^k] (ties to even), with the sign
    [neg], and whether the conversion reports a range error: overflow to
    infinity, or a result below the normal range that is not exact. *)
Definition strtod_round (neg : bool) (m : Z) (k : nat) : double * bool :=
  match m with
  | Z0 => (S754_zero neg, false)
  | _ =>
      let '(q, e, l) := SFdiv_core_binary prec emax m 0 (10 ^ Z.of_nat k) 0 in
      let inexact :=
        match loc_of_shr_record (fst (shr_fexp prec emax q e l)) with
        | loc_Exact => false
        | loc_Inexact _ => true
        end in
      let x := binary_round_aux prec emax neg q e l in
      let erange :=
        match x with
        | S754_infinity _ => true
        | S754_zero _ => true
        | S754_finite _ mx _ => (Z.pos (digits2_pos mx) <? prec) && inexact
        | S754_nan => false
        end in
      (x, erange)
  end.

(** [std::stod(str)] on decimal text without an exponent: optional sign,
    digits, optional point, digits.  (Exponents, hexadecimal floats, "inf"
    and "nan" start with a letter or contain one, and [tabxx.detectType]
    never passes a string with a letter.)  [invalid_argument] when there is
    no digit, [out_of_range] on a range error of the conversion. *)
Definition stod (str : string) : result double :=
  let (neg, s) := take_sign (skip_space str) in
  let '(mi, ni, r) := take_digits s 0 0 in
  let '(m, nf, _) :=
    match r with
    | String ch r' => if Ascii.eqb ch "." then take_digits r' mi 0
                      else (mi, 0%nat, r)
    | EmptyString => (mi, 0%nat, r)
    end in
  if (ni + nf =? 0)%nat then Throw invalid_argument
  else
    let (x, erange) := strtod_round neg m nf in
    if erange then Throw out_of_range else Ok x.

(** ** Conversions to text *)

(** [std::to_string] of a signed integer. *)
Definition to_string (z : Z) : string := NilZero.string_of_int (Z.to_int z).

Fixpoint zeros (n : nat) : string :=
  match n with
  | O => ""
  | S n' => String "0" (zeros n')
  end.

(** The decimal digits of [n >= 0] with the point placed [p] digits from
    the right (no point when [p = 0]). *)
Definition place_point (p : nat) (n : Z) : string :=
  let ds := to_string n in
  let ds := zeros (S p - String.length ds) ++ ds in
  let k := (String.length ds - p)%nat in
  if (p =? 0)%nat then ds
  else substring 0 k ds ++ "." ++ substring k p ds.

(** Nearest integer to [m * 2^e], ties to even. *)
Definition round_half_even (m e : Z) : Z :=
  if 0 <=? e then m * 2 ^ e
  else
    let d := 2 ^ (- e) in
    let (q, r) := Z.div_eucl m d in
    match 2 * r ?= d with
    | Lt => q
    | Gt => q + 1
    | Eq => if Z.even q then q else q + 1
    end.

Definition sign_text (s : bool) : string := if s then "-" else "".

(** [ss << std::fixed << std::setprecision(p) << x]: fixed notation with [p]
    digits after the point; a negative precision is formatted as 6. *)
Definition fixed (p : Z) (x : double) : string :=
  let p := if p <? 0 then 6%nat else Z.to_nat p in
  match x with
  | S754_nan => "nan"
  | S754_infinity s => sign_text s ++ "inf"
  | S754_zero s => sign_text s ++ place_point p 0
  | S754_finite s m e =>
      sign_text s ++ place_point p (round_half_even (Z.pos m * 10 ^ Z.of_nat p) e)
  end.

(** ** std::ostream and std::size_t *)

(** An output stream is the text written so far. *)
Definition ostream : Type := string.

Definition SIZE_MAX : Z := 2 ^ 64 - 1.

(** [ret += n] on [std::size_t]. *)
Definition size_add (ret n : Z) : Z := (ret + n) mod (SIZE_MAX + 1).

End std.

Import std.

(* ================================================================== *)
(** * namespace tabxx: class CSV                                       *)
(* ================================================================== *)

Module tabxx.

(** ** class CSV::Settings *)

Inductive LINE_ENDING : Type := LF | CRLF | AUTO.

Record Settings : Type := mk_Settings {
  ending_ : LINE_ENDING;
  separator_ : ascii;
  auto_derive_type_ : bool;
  double_precision_ : Z
}.

(** [Settings()] *)
Definition Settings_default : Settings := mk_Settings LF "," false 1.

Definition setEnding (s : Settings) (ending : LINE_ENDING) : Settings :=
  mk_Settings ending (separator_ s) (auto_derive_type_ s) (double_precision_ s).

Definition setSeparator (s : Settings) (separator : ascii) : Settings :=
  mk_Settings (ending_ s) separator (auto_derive_type_ s) (double_precision_ s).

Definition setAutoDeriveType (s : Settings) (opt : bool) : Settings :=
  mk_Settings (ending_ s) (separator_ s) opt (double_precision_ s).

Definition setDoublePrecision (s : Settings) (p : Z) : Settings :=
  mk_Settings (ending_ s) (separator_ s) (auto_derive_type_ s) p.

(** [settings_.ending_ == Settings::LF] *)
Definition is_LF (e : LINE_ENDING) : bool :=
  match e with LF => true | _ => false end.

Definition is_AUTO (e : LINE_ENDING) : bool :=
  match e with AUTO => true | _ => false end.

(** ** Cells: std::any

    A cell is a [std::any].  The class itself stores [std::string],
    [double] and [long long] (the Text, Float and Integer of the
    specification); [addRow] accepts whatever the caller put in, and
    [anyToString] also knows [int], [short] and [char] (held here by their
    numeric value).  [AnyOther] stands for every other content. *)
Inductive any : Type :=
| AnyString (s : string)
| AnyDouble (d : double)
| AnyLongLong (z : Z)
| AnyInt (z : Z)
| AnyShort (z : Z)
| AnyChar (z : Z)
| AnyOther.

Notation Text := AnyString.
Notation Float := AnyDouble.
Notation Integer := AnyLongLong.

(** [std::any_cast<std::string>(v)] *)
Definition any_cast_string (v : any) : result string :=
  match v with
  | AnyString s => Ok s
  | _ => Throw bad_any_cast
  end.

(** ** class CSV: data members *)

Record CSV : Type := mk_CSV {
  settings_ : Settings;
  title_ : list string;
  values_ : list (list any)
}.

(** [CSV(const Settings& settings = Settings())] *)
Definition CSV_new (settings : Settings) : CSV := mk_CSV settings [] [].

Definition with_settings (this : CSV) (s : Settings) : CSV :=
  mk_CSV s (title_ this) (values_ this).

Definition getColumnCount (this : CSV) : nat := List.length (title_ this).
Definition getRowCount (this : CSV) : nat := List.length (values_ this).
Definition getTitles (this : CSV) : list string := title_ this.

(** [bool empty()] *)
Definition empty (this : CSV) : bool :=
  match title_ this with [] => true | _ :: _ => false end.

(** [void clear()] *)
Definition clear (this : CSV) : CSV := mk_CSV (settings_ this) [] [].

(** [void setTitle(t)] (both overloads) *)
Definition setTitle (this : CSV) (t : list string) : CSV :=
  mk_CSV (settings_ (clear this)) t (values_ (clear this)).

(** A mutating member function yields its outcome and the object as it is
    when the call ends, also when it ends by an exception. *)

(** [void addRow(l)] (both overloads) *)
Definition addRow (this : CSV) (l : list any) : result unit * CSV :=
  if negb (List.length l =? List.length (title_ this))%nat then
    (Throw (runtime_error "tabxx::CSV::addRow(): Invalid value count"), this)
  else (Ok tt, mk_CSV (settings_ this) (title_ this) (values_ this ++ [l])%list).

(** [void removeRow(std::size_t index)] *)
Definition removeRow (this : CSV) (index : nat) : result unit * CSV :=
  if (List.length (values_ this) <=? index)%nat then
    (Throw (runtime_error "tabxx::CSV::removeRow(): Index out of range"), this)
  else (Ok tt, mk_CSV (settings_ this) (title_ this)
                 (firstn index (values_ this) ++ skipn (S index) (values_ this))%list).

(** [void removeRow(std::size_t begin, std::size_t end)]: erases the rows
    at positions [begin .. end-1]. *)
Definition removeRow_range (this : CSV) (begin end_ : nat) : result unit * CSV :=
  if (List.length (values_ this) <=? begin)%nat
     || (List.length (values_ this) <=? end_)%nat
     || (end_ <? begin)%nat then
    (Throw (runtime_error "tabxx::CSV::removeRow(): Invalid range"), this)
  else (Ok tt, mk_CSV (settings_ this) (title_ this)
                 (firstn begin (values_ this) ++ skipn end_ (values_ this))%list).

(** ** Accessors *)

(** [std::vector<std::string> getColumns()] *)
Definition getColumns (this : CSV) : list string := title_ this.

(** [std::vector<std::any> getRow(std::size_t row)] *)
Definition getRow (this : CSV) (row : nat) : result (list any) :=
  vector_at (values_ this) row.

(** The loop of [getColumn]: [for (auto ite : values_)
    ret.emplace_back(ite.at(column));]. *)
Fixpoint getColumn_loop (values : list (list any)) (column : nat)
    (ret : list any) : result (list any) :=
  match values with
  | [] => Ok ret
  | ite :: rest =>
      bind (vector_at ite column) (fun v =>
        getColumn_loop rest column (ret ++ [v])%list)
  end.

(** [std::vector<std::any> getColumn(std::size_t column)]; the guard is
    [column <= title_.size()]. *)
Definition getColumn (this : CSV) (column : nat) : result (list any) :=
  if (column <=? List.length (title_ this))%nat then
    getColumn_loop (values_ this) column []
  else Ok [].

(** The loop of [searchTitle], entered with [ret] and the titles from
    position [ret] on. *)
Fixpoint searchTitle_loop (title : list string) (str : string) (ret : nat)
  : nat :=
  match title with
  | [] => ret
  | t :: rest =>
      if String.eqb t str then ret else searchTitle_loop rest str (S ret)
  end.

(** [std::size_t searchTitle(const std::string& str)] *)
Definition searchTitle (this : CSV) (str : string) : nat :=
  searchTitle_loop (title_ this) str 0.

(** [std::vector<std::any> getColumn(const std::string& column)] *)
Definition getColumn_by_title (this : CSV) (column : string)
  : result (list any) :=
  getColumn this (searchTitle this column).

(** [std::any& getValue(std::size_t column, std::size_t row)] *)
Definition getValue (this : CSV) (column row : nat) : result any :=
  bind (vector_at (values_ this) row) (fun line => vector_at line column).

(** [std::any& getValue(const std::string& column, std::size_t row)] *)
Definition getValue_by_title (this : CSV) (column : string) (row : nat)
  : result any :=
  bind (vector_at (values_ this) row) (fun line =>
    vector_at line (searchTitle this column)).

(** [getValue<std::string>(column, row)]: the template with
    [V = std::string]. *)
Definition getValue_string (this : CSV) (column row : nat) : result string :=
  bind (getValue this column row) any_cast_string.

(** ** detectType *)

(** The character loop of [detectType]: [None] when a character
    disqualifies the text as a number, otherwise the final [isFloat].
    [at_begin] is [ch == str.begin()]. *)
Fixpoint numeric_scan (s : string) (at_begin isFloat : bool) : option bool :=
  match s with
  | EmptyString => Some isFloat
  | String ch rest =>
      if negb (isdigit ch) then
        if Ascii.eqb ch "." then
          if negb isFloat then numeric_scan rest false true
          else None
        else if at_begin && (Ascii.eqb ch "+" || Ascii.eqb ch "-") then
          numeric_scan rest false isFloat
        else None
      else numeric_scan rest false isFloat
  end.

(** The quote test and the two [erase] calls at the head of [detectType]. *)
Definition strip_quotes (str : string) : result string :=
  bind (at_ str 0) (fun first =>
    if Ascii.eqb first dquote then
      bind (at_ str (String.length str - 1)) (fun last =>
        if Ascii.eqb last dquote then
          bind (erase str (String.length str - 1) 1) (fun str => erase str 0 1)
        else Ok str)
    else Ok str).

(** [std::any detectType(std::string&& str)] *)
Definition detectType (str : string) : result any :=
  bind (strip_quotes str) (fun str =>
    match numeric_scan str true false with
    | None => Ok (AnyString str)
    | Some true => bind (stod str) (fun d => Ok (AnyDouble d))
    | Some false => bind (stoll str) (fun z => Ok (AnyLongLong z))
    end).

(** ** anyToString *)

(** [std::string anyToString(std::any v)].  For a content of any other type
    control flows off the end of the function without a [return]. *)
Definition anyToString (this : CSV) (v : any) : result string :=
  match v with
  | AnyString s => Ok s
  | AnyDouble d => Ok (fixed (double_precision_ (settings_ this)) d)
  | AnyLongLong z => Ok (to_string z)
  | AnyInt z => Ok (to_string z)
  | AnyShort z => Ok (to_string z)
  | AnyChar z => Ok (to_string z)
  | AnyOther => Undefined
  end.

(** ** write *)

(** The state of [write]: the stream [des] and the counter [ret]. *)
Definition wstate : Type := (ostream * Z)%type.

(** [des << str; ret += str.size();] *)
Definition put (str : string) (w : wstate) : wstate :=
  (fst w ++ str, size_add (snd w) (Z.of_nat (String.length str))).

(** [des << settings_.separator_; ++ret;] *)
Definition put_separator (this : CSV) (w : wstate) : wstate :=
  put (String (separator_ (settings_ this)) "") w.

(** The line terminator: ['\n'] for [LF], ["\r\n"] otherwise. *)
Definition put_ending (this : CSV) (w : wstate) : wstate :=
  if is_LF (ending_ (settings_ this)) then put endl w else put crlf w.

(** The loop over [title_]; [i < lim - 1] holds for all but the last. *)
Fixpoint write_titles (this : CSV) (title : list string) (w : wstate) : wstate :=
  match title with
  | [] => w
  | t :: rest =>
      let w := put t w in
      match rest with
      | [] => w
      | _ :: _ => write_titles this rest (put_separator this w)
      end
  end.

(** The loop over the cells of one row; [cell] is the conversion the
    enclosing branch of [write] applies to each cell. *)
Fixpoint write_line (this : CSV) (cell : any -> result string)
    (line : list any) (w : wstate) : result unit * wstate :=
  match line with
  | [] => (Ok tt, w)
  | v :: rest =>
      match cell v with
      | Ok str =>
          let w := put str w in
          match rest with
          | [] => (Ok tt, w)
          | _ :: _ => write_line this cell rest (put_separator this w)
          end
      | Throw e => (Throw e, w)
      | Undefined => (Undefined, w)
      | NoFuel => (NoFuel, w)
      end
  end.

(** The loop over [values_]. *)
Fixpoint write_rows (this : CSV) (cell : any -> result string)
    (values : list (list any)) (w : wstate) : result unit * wstate :=
  match values with
  | [] => (Ok tt, w)
  | line :: rest =>
      match write_line this cell line w with
      | (Ok _, w) => write_rows this cell rest (put_ending this w)
      | (r, w) => (r, w)
      end
  end.

(** [std::size_t write(std::ostream& des)]: the outcome (the byte count on
    a normal return) and the stream afterwards. *)
Definition write (this : CSV) (des : ostream) : result Z * ostream :=
  if negb (empty this) then
    let w := write_titles this (title_ this) (des, 0) in
    let w := put_ending this w in
    let cell := if negb (auto_derive_type_ (settings_ this))
                then any_cast_string else anyToString this in
    match write_rows this cell (values_ this) w with
    | (Ok _, (des, ret)) => (Ok ret, des)
    | (Throw e, (des, _)) => (Throw e, des)
    | (Undefined, (des, _)) => (Undefined, des)
    | (NoFuel, (des, _)) => (NoFuel, des)
    end
  else (Ok 0, des).

(** ** parse *)

(** The scanning loop of the AUTO mode:
    [for (char ch = 0; !src.eof(); ) { ch = src.get(); ... }]. *)
Fixpoint parse_auto (fuel : nat) (this : CSV) (src : istream) (line : string)
  : option (CSV * istream * string) :=
  match fuel with
  | O => None
  | S fuel' =>
      if negb (eof src) then
        let (i, src) := get src in
        let ch := to_char i in
        if Ascii.eqb ch cr then
          Some (with_settings this (setEnding (settings_ this) CRLF), src, line)
        else if Ascii.eqb ch nl then
          Some (with_settings this (setEnding (settings_ this) LF), src, line)
        else parse_auto fuel' this src (push_back line ch)
      else Some (this, src, line)
  end.

(** The header loop: [std::getline(ss, name, separator_)] into a fresh
    [name] until the stream is at its end with nothing read. *)
Fixpoint parse_titles (fuel : nat) (this : CSV) (ss : istream)
    (title : list string) : option (list string) :=
  match fuel with
  | O => None
  | S fuel' =>
      let (ss, name) := getline ss "" (separator_ (settings_ this)) in
      if negb (eof ss) || negb (std.empty name) then
        parse_titles fuel' this ss (title ++ [name])%list
      else Some title
  end.

(** The loop over the fields of one data line. *)
Fixpoint parse_row (fuel : nat) (this : CSV) (s : istream) (row : list any)
  : result (list any) :=
  match fuel with
  | O => NoFuel
  | S fuel' =>
      let (s, val) := getline s "" (separator_ (settings_ this)) in
      bind (if auto_derive_type_ (settings_ this) then detectType val
            else Ok (AnyString val))
        (fun v =>
           let row := (row ++ [v])%list in
           if eof s then Ok row else parse_row fuel' this s row)
  end.

(** Iteration bound for the loops over a local [std::stringstream]. *)
Definition line_fuel (line : string) : nat := String.length line + 2.

(** After a line was read up to ['\r'], one more character is extracted:
    [if (delim_line == '\r') src.get();]. *)
Definition skip_after_cr (delim_line : ascii) (src : istream) : istream :=
  if Ascii.eqb delim_line cr then snd (get src) else src.

(** The loop over the data lines.  [line] is the variable declared at the
    top of [parse]: it still holds the header line when the loop starts. *)
Fixpoint parse_rows (fuel : nat) (delim_line : ascii) (this : CSV)
    (src : istream) (line : string) : result Z * CSV * istream :=
  match fuel with
  | O => (NoFuel, this, src)
  | S fuel' =>
      let (src, line) := getline src line delim_line in
      if std.empty line then
        if negb (eof src) then
          (Throw (runtime_error
             "tabxx::CSV::parse(std::istream&): Invalid Dataline (Empty Line)"),
           this, src)
        else (Ok 0, this, src)
      else
        let src := skip_after_cr delim_line src in
        match parse_row (line_fuel line) this (istringstream line) [] with
        | Ok row =>
            if negb (List.length row =? getColumnCount this)%nat then
              (Throw (runtime_error
                 "tabxx::CSV::parse(std::istream&): Invalid Dataline"),
               this, src)
            else
              let this := mk_CSV (settings_ this) (title_ this)
                                 (values_ this ++ [row])%list in
              if eof src then (Ok 0, this, src)
              else parse_rows fuel' delim_line this src line
        | Throw e => (Throw e, this, src)
        | Undefined => (Undefined, this, src)
        | NoFuel => (NoFuel, this, src)
        end
  end.

(** Iteration bound for the loops over [src].  It is never reached on a
    stream that is good or at its end.  On a stream that is failed without
    being at its end, [src.get()] fails forever without raising [eofbit]
    and the AUTO scan of the source does not end: that is the one case in
    which [parse] yields [NoFuel]. *)
Definition stream_fuel (src : istream) : nat := String.length (buf src) + 2.

(** The first statements of [parse]: the header line as it stands at
    [if (line.empty())], with the object and the stream at that point.  The
    variable [line] is filled by the AUTO scan only. *)
Definition detect_header (this : CSV) (src : istream)
  : option (CSV * istream * string) :=
  if is_AUTO (ending_ (settings_ this)) then
    parse_auto (stream_fuel src) this src ""
  else Some (this, src, "").

(** [char delim_line = (settings_.ending_ == Settings::LF ? '\n' : '\r');] *)
Definition delim_of (this : CSV) : ascii :=
  if is_LF (ending_ (settings_ this)) then nl else cr.

(** [int parse(std::istream& src)]: the outcome (the returned [int] on a
    normal return), the object and the stream afterwards. *)
Definition parse (this : CSV) (src : istream) : result Z * CSV * istream :=
  match detect_header this src with
  | None => (NoFuel, this, src)
  | Some (this, src, line) =>
      let delim_line := delim_of this in
      if std.empty line then (Ok (-1), this, src)
      else
        let src := skip_after_cr delim_line src in
        let this := mk_CSV (settings_ this) [] [] in
        match parse_titles (line_fuel line) this (istringstream line) [] with
        | None => (NoFuel, this, src)
        | Some title =>
            parse_rows (stream_fuel src) delim_line
              (mk_CSV (settings_ this) title []) src line
        end
  end.

(** ** Constructors that parse *)

(** [CSV(std::istream& src, const Settings& s)]: the value returned by
    [parse] is discarded; an exception leaves no object. *)
Definition CSV_of_istream (src : istream) (s : Settings) : result CSV * istream :=
  match parse (CSV_new s) src with
  | (Ok _, this, src) => (Ok this, src)
  | (Throw e, _, src) => (Throw e, src)
  | (Undefined, _, src) => (Undefined, src)
  | (NoFuel, _, src) => (NoFuel, src)
  end.

(** [CSV(const std::string& str, const Settings& s)] *)
Definition CSV_of_string (str : string) (s : Settings) : result CSV :=
  fst (CSV_of_istream (istringstream str) s).

(** [static CSV parse(const std::string& str, const Settings& settings)] *)
Definition parse_string (str : string) (settings : Settings) : result CSV :=
  CSV_of_string str settings.

End tabxx.

Import tabxx.

(* ================================================================== *)
(** * Vocabulary of the properties                                     *)
(* ================================================================== *)

(** Does [ch] occur in [s]? *)
Fixpoint contains (ch : ascii) (s : string) : bool :=
  match s with
  | EmptyString => false
  | String c rest => Ascii.eqb c ch || contains ch rest
  end.

(** Fields joined by the separator. *)
Definition join (sep : ascii) (fields : list string) : string :=
  String.concat (String sep "") fields.

(** The fields of a line: the text between consecutive separators. *)
Fixpoint split (sep : ascii) (s : string) : list string :=
  match s with
  | EmptyString => [""]
  | String ch rest =>
      if Ascii.eqb ch sep then "" :: split sep rest
      else match split sep rest with
           | f :: fs => String ch f :: fs
           | [] => [String ch ""]
           end
  end.

(** The table invariant: every stored row is as long as the title row. *)
Definition row_invariant (this : CSV) : Prop :=
  Forall (fun row : list any => List.length row = List.length (title_ this))
         (values_ this).

(** The exact value [num / den] of a finite binary64 number. *)
Definition represents (x : double) (num den : Z) : Prop :=
  match x with
  | S754_finite s m e =>
      cond_Zopp s (Z.pos m) * 2 ^ Z.max e 0 * den = num * 2 ^ Z.max (- e) 0
  | S754_zero _ => num = 0
  | _ => False
  end.

(** The texts of the cells of one row under the conversion [cell]. *)
Fixpoint render (cell : any -> result string) (line : list any)
  : result (list string) :=
  match line with
  | [] => Ok []
  | v :: rest =>
      bind (cell v) (fun str =>
        bind (render cell rest) (fun strs => Ok (str :: strs)))
  end.

(** The conversion [write] applies to each cell. *)
Definition cell_text (this : CSV) : any -> result string :=
  if negb (auto_derive_type_ (settings_ this)) then any_cast_string
  else anyToString this.

(** Lines of fields, each joined by [sep] and closed by [term]. *)
Fixpoint lines_text (sep : ascii) (term : string) (lines : list (list string))
  : string :=
  match lines with
  | [] => ""
  | l :: rest => join sep l ++ term ++ lines_text sep term rest
  end.

(** The byte counter of [write] is within [std::size_t]. *)
Definition in_range (w : wstate) : Prop := 0 <= snd w <= SIZE_MAX.

(** The line terminator [write] emits. *)
Definition terminator (this : CSV) : string :=
  if is_LF (ending_ (settings_ this)) then endl else crlf.

(** The text of a whole table: the title line, then the lines. *)
Definition table_text (this : CSV) (lines : list (list string)) : string :=
  join (separator_ (settings_ this)) (title_ this) ++ terminator this
  ++ lines_text (separator_ (settings_ this)) (terminator this) lines.

(** The header rule: one empty field at the very end is not a title. *)
Fixpoint drop_last_empty (fields : list string) : list string :=
  match fields with
  | [] => []
  | f :: rest =>
      match rest with
      | [] => if std.empty f then [] else [f]
      | _ :: _ => f :: drop_last_empty rest
      end
  end.

(** What the data loop stores for one raw field. *)
Definition field_value (this : CSV) (val : string) : result any :=
  if auto_derive_type_ (settings_ this) then detectType val
  else Ok (AnyString val).

(** The raw fields converted from left to right; the first failure ends
    the conversion. *)
Fixpoint convert (this : CSV) (fields : list string) : result (list any) :=
  match fields with
  | [] => Ok []
  | f :: rest =>
      bind (field_value this f) (fun v =>
        bind (convert this rest) (fun vs => Ok (v :: vs)))
  end.

(** The mode the AUTO scan fixes when it meets the terminator [t]. *)
Definition ending_for (t : ascii) : LINE_ENDING :=
  if Ascii.eqb t cr then CRLF else LF.

(** The object after the AUTO scan has fixed the mode. *)
Definition fix_ending (this : CSV) (t : ascii) : CSV :=
  with_settings this (setEnding (settings_ this) (ending_for t)).

(** A row of Text cells. *)
Definition texts (fields : list string) : list any := map AnyString fields.

(** A title that survives a write and a parse in AUTO mode: it holds
    neither the separator nor a line-end character. *)
Definition clean_title (sep : ascii) (t : string) : bool :=
  negb (contains sep t) && negb (contains cr t) && negb (contains nl t).

(** A cell that survives: it holds neither the separator nor a CR. *)
Definition clean_field (sep : ascii) (f : string) : bool :=
  negb (contains sep f) && negb (contains cr f).

(** A row that survives: as long as the title row, clean fields, and a
    written line that is not empty. *)
Definition clean_row (sep : ascii) (columns : nat) (l : list string) : Prop :=
  List.length l = columns
  /\ Forall (fun f => clean_field sep f = true) l
  /\ join sep l <> "".

(** A call that ends: by a return or by an exception. *)
Definition defined {A : Type} (r : result A) : Prop :=
  match r with
  | Ok _ | Throw _ => True
  | Undefined | NoFuel => False
  end.

(** A stream on which an extraction either succeeds or raises [eofbit]:
    it is not failed without being at its end. *)
Definition usable (src : istream) : Prop :=
  eofbit src = true \/ failbit src = false.

(** Upper bound on the extractions that can still succeed, plus the ones
    that find the end. *)
Definition measure (src : istream) : nat :=
  if eofbit src then 1%nat else (String.length (buf src) + 2)%nat.

(** [w] holds [des] followed by some text, and counts that text. *)
Definition tracks (des : ostream) (w : wstate) : Prop :=
  exists text,
    fst w = des ++ text
    /\ snd w = Z.of_nat (String.length text) mod (SIZE_MAX + 1).

(** Does the cell hold a [std::string]? *)
Definition is_string (v : any) : bool :=
  match v with AnyString _ => true | _ => false end.

(** Does the cell hold one of the types [anyToString] knows? *)
Definition is_printable (v : any) : bool :=
  match v with AnyOther => false | _ => true end.

(** Does the cell hold one of the three types [parse] stores? *)
Definition is_parsed_kind (v : any) : bool :=
  match v with
  | AnyString _ | AnyDouble _ | AnyLongLong _ => true
  | _ => false
  end.

(** The texts of the cells of all rows; the first failure ends it. *)
Fixpoint render_rows (cell : any -> result string) (values : list (list any))
  : result (list (list string)) :=
  match values with
  | [] => Ok []
  | line :: rest =>
      bind (render cell line) (fun strs =>
        bind (render_rows cell rest) (fun lines => Ok (strs :: lines)))
  end.

(** The number a sequence of decimal digits denotes, read from the left
    onto the value [acc] of the digits before it. *)
Fixpoint digits_value (d : Decimal.uint) (acc : Z) : Z :=
  match d with
  | Decimal.Nil => acc
  | Decimal.D0 d => digits_value d (10 * acc)
  | Decimal.D1 d => digits_value d (10 * acc + 1)
  | Decimal.D2 d => digits_value d (10 * acc + 2)
  | Decimal.D3 d => digits_value d (10 * acc + 3)
  | Decimal.D4 d => digits_value d (10 * acc + 4)
  | Decimal.D5 d => digits_value d (10 * acc + 5)
  | Decimal.D6 d => digits_value d (10 * acc + 6)
  | Decimal.D7 d => digits_value d (10 * acc + 7)
  | Decimal.D8 d => digits_value d (10 * acc + 8)
  | Decimal.D9 d => digits_value d (10 * acc + 9)
  end.

(** A field wrapped in one pair of double quotes. *)
Definition quoted (s : string) : string := String dquote (s ++ String dquote "").

(** The content [parse] may store in a cell under the settings of the
    table: a string without type inference; a string, a [double] or a
    [long long] with it. *)
Definition stored_kind (this : CSV) (v : any) : bool :=
  if auto_derive_type_ (settings_ this) then is_parsed_kind v
  else is_string v.

(** Every cell of the table is of a kind [parse] stores. *)
Definition cells_invariant (this : CSV) : Prop :=
  Forall (Forall (fun v => stored_kind this v = true)) (values_ this).

(** Two settings that differ at most in the line ending. *)
Definition same_but_ending (a b : Settings) : Prop :=
  separator_ a = separator_ b
  /\ auto_derive_type_ a = auto_derive_type_ b
  /\ double_precision_ a = double_precision_ b.

(** The terminator text that goes with the delimiter [t] of the data
    loop: CR LF for CR, LF for LF. *)
Definition term_of (t : ascii) : string :=
  if Ascii.eqb t cr then crlf else endl.

(** A cell that can be read back when lines are cut at [t]: it holds
    neither the separator nor [t]. *)
Definition clean_for (sep t : ascii) (f : string) : bool :=
  negb (contains sep f) && negb (contains t f).

(** A row that can be read back when lines are cut at [t]. *)
Definition clean_row_for (sep t : ascii) (columns : nat) (l : list string)
  : Prop :=
  List.length l = columns
  /\ Forall (fun f => clean_for sep t f = true) l
  /\ join sep l <> "".

(** Titles and rows that the AUTO mode reads back from their text with
    the terminator of [t], without type inference. *)
Definition auto_readable (s : Settings) (t : ascii) (titles : list string)
    (lines : list (list string)) : Prop :=
  ending_ s = AUTO
  /\ auto_derive_type_ s = false
  /\ (t = cr \/ t = nl)
  /\ separator_ s <> cr
  /\ separator_ s <> nl
  /\ last titles "" <> ""
  /\ Forall (fun ti => clean_title (separator_ s) ti = true) titles
  /\ Forall (clean_row_for (separator_ s) t (List.length titles)) lines.

(** The title line and the lines, each closed by the terminator of [t]. *)
Definition text_for (s : Settings) (t : ascii) (titles : list string)
    (lines : list (list string)) : string :=
  join (separator_ s) titles ++ term_of t
  ++ lines_text (separator_ s) (term_of t) lines.

(** The table [parse] builds from such a text. *)
Definition table_for (s : Settings) (t : ascii) (titles : list string)
    (lines : list (list string)) : CSV :=
  mk_CSV (setEnding s (ending_for t)) titles (map texts lines).

(** The byte that the narrowing of [traits::eof()] to [char] gives. *)
Definition eof_byte : ascii := "255"%char.

(** How often [ch] occurs in [s]. *)
Fixpoint count (ch : ascii) (s : string) : nat :=
  match s with
  | EmptyString => 0%nat
  | String c rest => ((if Ascii.eqb c ch then 1 else 0) + count ch rest)%nat
  end.

(** A data line that is read back as [row] when lines are cut at [t]
    under the settings [s]: [columns] fields, none of which holds the
    separator or [t], a line that is not empty, and fields whose
    conversion (to Text, or by type inference) succeeds and gives [row]. *)
Definition row_reads (s : Settings) (t : ascii) (columns : nat)
    (l : list string) (row : list any) : Prop :=
  List.length l = columns
  /\ Forall (fun f => clean_for (separator_ s) t f = true) l
  /\ join (separator_ s) l <> ""
  /\ convert (CSV_new s) l = Ok row.

(** The settings the examples use. *)
Definition settings_LF : Settings := mk_Settings LF "," false 1.
Definition settings_AUTO : Settings := mk_Settings AUTO "," false 1.

(** A two-column table with two rows of Text cells, mode AUTO. *)
Definition example_AUTO_table : CSV :=
  mk_CSV settings_AUTO ["a"; "b"]
         [[Text "1"; Text "2"]; [Text "3"; Text "4"]].

(** A one-column table with one row, mode LF. *)
Definition example_LF_table : CSV := mk_CSV settings_LF ["a"] [[Text "1"]].

(** A one-column table whose only cell holds the separator, mode AUTO. *)
Definition example_comma_cell : CSV := mk_CSV settings_AUTO ["a"] [[Text "x,y"]].

(** A table with a title row and two rows; the last cell holds a
    [long long]. *)
Definition example_mixed_table : CSV :=
  mk_CSV settings_LF ["a"; "b"]
         [[Text "1"; Text "2"]; [Text "3"; AnyLongLong 4]].

(** A CR LF text with two data lines; the second one holds a bare LF
    inside its first field. *)
Definition example_CRLF_text : string :=
  "a,b" ++ crlf ++ "1,2" ++ crlf ++ "3" ++ endl ++ ",4" ++ crlf.

(** An LF text with two data lines; the second one holds a CR at the
    end of its last field. *)
Definition example_LF_text_with_CR : string :=
  "a,b" ++ endl ++ "1,2" ++ endl ++ "3,4" ++ String cr "" ++ endl.


(** A stream that starts with a line end, then holds a,b. *)
Definition example_blank_first : istream := istringstream (crlf ++ "a,b").

(** The text of the specification's example: a,b / 1,2 / 3,4 with LF. *)
Definition example_LF_text : string :=
  "a,b" ++ endl ++ "1,2" ++ endl ++ "3,4" ++ endl.

(** The five characters: quote, a, b, c, quote. *)
Definition quoted_abc : string := String dquote ("abc" ++ String dquote "").

(** 12.5 as a binary64 number. *)
Definition double_12_5 : double := S754_finite false 7036874417766400 (-49).

(* ================================================================== *)
(** * Elementary facts                                                 *)
(* ================================================================== *)

Lemma parse_auto_table fuel : forall this src line this' src' line',
  parse_auto fuel this src line = Some (this', src', line') ->
  title_ this' = title_ this /\ values_ this' = values_ this.
Proof.
  induction fuel as [|fuel IH]; intros this src line this' src' line' H.
  - discriminate.
  - simpl in H. destruct (negb (eof src)).
    + destruct (get src) as [i src1].
      destruct (Ascii.eqb (to_char i) cr).
      * inversion H; subst; simpl; auto.
      * destruct (Ascii.eqb (to_char i) nl).
        -- inversion H; subst; simpl; auto.
        -- eapply IH; eauto.
    + inversion H; subst; auto.
Qed.

Lemma detect_header_table this src this' src' line :
  detect_header this src = Some (this', src', line) ->
  title_ this' = title_ this /\ values_ this' = values_ this.
Proof.
  unfold detect_header. destruct (is_AUTO _).
  - apply parse_auto_table.
  - intros H; inversion H; subst; auto.
Qed.

(** With an explicit line ending nothing is read into [line], so [parse]
    leaves at [if (line.empty()) return -1;]. *)
Lemma parse_explicit_ending this src :
  is_AUTO (ending_ (settings_ this)) = false ->
  parse this src = (Ok (-1), this, src).
Proof.
  intros H. unfold parse, detect_header. rewrite H. reflexivity.
Qed.

(** ** Strings *)

Lemma append_assoc (a b c : string) : (a ++ b) ++ c = a ++ (b ++ c).
Proof. induction a as [|ch a IH]; simpl; [reflexivity | now rewrite IH]. Qed.

Lemma append_nil_r (a : string) : a ++ "" = a.
Proof. induction a as [|ch a IH]; simpl; [reflexivity | now rewrite IH]. Qed.

Lemma length_append (a b : string) :
  String.length (a ++ b) = (String.length a + String.length b)%nat.
Proof. induction a as [|ch a IH]; simpl; [reflexivity | now rewrite IH]. Qed.

Lemma join_cons sep (f g : string) (fs : list string) :
  join sep (f :: g :: fs) = f ++ String sep (join sep (g :: fs)).
Proof. reflexivity. Qed.

(** ** Reading up to a delimiter *)

Lemma until_split d : forall s l,
  (forall r, until d s = (l, Some r) -> split d s = l :: split d r)
  /\ (until d s = (l, None) -> split d s = [l]).
Proof.
  induction s as [|ch s IH]; intros l; simpl.
  - split; intros; [discriminate|]. now inversion H.
  - destruct (Ascii.eqb ch d).
    + split; [intros r H | intros H]; inversion H; subst; reflexivity.
    + destruct (until d s) as [l' o] eqn:E.
      split; [intros r H | intros H]; inversion H; subst.
      * now rewrite (proj1 (IH l') r eq_refl).
      * now rewrite (proj2 (IH l') eq_refl).
Qed.

Lemma until_length d : forall s l r,
  until d s = (l, Some r) -> (String.length r < String.length s)%nat.
Proof.
  induction s as [|ch s IH]; intros l r; simpl; [discriminate|].
  destruct (Ascii.eqb ch d).
  - intros H; inversion H; subst. lia.
  - destruct (until d s) as [l' o] eqn:E. intros H; inversion H; subst.
    specialize (IH l' r eq_refl). lia.
Qed.

Lemma until_none_nonempty d : forall s l,
  until d s = (l, None) -> l = s.
Proof.
  induction s as [|ch s IH]; intros l; simpl.
  - intros H; now inversion H.
  - destruct (Ascii.eqb ch d); [discriminate|].
    destruct (until d s) as [l' o] eqn:E. intros H; inversion H; subst.
    now rewrite (IH l' eq_refl).
Qed.

Lemma until_clean d : forall s, contains d s = false -> until d s = (s, None).
Proof.
  induction s as [|ch s IH]; simpl; [reflexivity|].
  intros H. apply orb_false_elim in H as [H1 H2].
  rewrite H1, (IH H2). reflexivity.
Qed.

Lemma until_clean_delim d r : forall s,
  contains d s = false -> until d (s ++ String d r) = (s, Some r).
Proof.
  induction s as [|ch s IH]; simpl.
  - now rewrite Ascii.eqb_refl.
  - intros H. apply orb_false_elim in H as [H1 H2].
    rewrite H1, (IH H2). reflexivity.
Qed.

Lemma getline_good s str d :
  getline (mk_istream s false false) str d
  = match until d s with
    | (l, Some rest) => (mk_istream rest false false, l)
    | (l, None) => (mk_istream "" true (std.empty l), l)
    end.
Proof. reflexivity. Qed.

Lemma getline_at_eof s f str d :
  getline (mk_istream s true f) str d = (mk_istream s true true, str).
Proof. reflexivity. Qed.

(** ** Fields of a line *)

Lemma split_not_nil sep s : split sep s <> [].
Proof.
  destruct s as [|ch s]; simpl; [discriminate|].
  destruct (Ascii.eqb ch sep); [discriminate|].
  destruct (split sep s); discriminate.
Qed.

Lemma split_clean sep : forall s, contains sep s = false -> split sep s = [s].
Proof.
  intros s H. exact (proj2 (until_split sep s s) (until_clean sep s H)).
Qed.

Lemma split_clean_sep sep r : forall s,
  contains sep s = false -> split sep (s ++ String sep r) = s :: split sep r.
Proof.
  intros s H.
  exact (proj1 (until_split sep _ s) r (until_clean_delim sep r s H)).
Qed.


Lemma drop_last_empty_cons f fields :
  fields <> [] -> drop_last_empty (f :: fields) = f :: drop_last_empty fields.
Proof. destruct fields; [congruence | reflexivity]. Qed.


Lemma split_join sep : forall fields,
  fields <> [] ->
  Forall (fun f => contains sep f = false) fields ->
  split sep (join sep fields) = fields.
Proof.
  induction fields as [|f rest IH]; intros Hne HF; [congruence|].
  inversion HF as [|? ? Hf HF']; subst.
  destruct rest as [|g rest'].
  - now apply split_clean.
  - rewrite join_cons, split_clean_sep by assumption.
    rewrite IH; [reflexivity | discriminate | assumption].
Qed.

(** ** The two tokenizer loops *)

(** The header loop stores the fields of the line, except for an empty
    field at the very end. *)
Lemma parse_titles_split this : forall fuel s title,
  (String.length s + 2 <= fuel)%nat ->
  parse_titles fuel this (istringstream s) title
  = Some (title ++ drop_last_empty (split (separator_ (settings_ this)) s))%list.
Proof.
  induction fuel as [|fuel IH]; intros s title Hf; [lia|].
  unfold istringstream in *. simpl parse_titles. rewrite getline_good.
  destruct (until (separator_ (settings_ this)) s) as [l [r|]] eqn:E.
  - simpl. rewrite IH by (apply until_length in E; lia).
    rewrite (proj1 (until_split _ s l) r E).
    rewrite drop_last_empty_cons by apply split_not_nil.
    now rewrite <- app_assoc.
  - rewrite (proj2 (until_split _ s l) E). simpl.
    destruct l as [|ch l]; simpl.
    + now rewrite app_nil_r.
    + destruct fuel as [|fuel]; [lia|]. simpl. reflexivity.
Qed.

(** The loop over a data line converts every field of the line, the
    empty one at the very end included. *)
Lemma parse_row_split this : forall fuel s row,
  (String.length s + 1 <= fuel)%nat ->
  parse_row fuel this (istringstream s) row
  = bind (convert this (split (separator_ (settings_ this)) s))
         (fun vs => Ok (row ++ vs)%list).
Proof.
  induction fuel as [|fuel IH]; intros s row Hf; [lia|].
  unfold istringstream in *. simpl parse_row. rewrite getline_good.
  fold (field_value this).
  destruct (until (separator_ (settings_ this)) s) as [l [r|]] eqn:E.
  - rewrite (proj1 (until_split _ s l) r E). simpl.
    change (if auto_derive_type_ (settings_ this) then detectType l
            else Ok (AnyString l)) with (field_value this l).
    destruct (field_value this l) as [v| | |]; simpl; try reflexivity.
    rewrite IH by (apply until_length in E; lia).
    destruct (convert this (split _ r)); simpl; try reflexivity.
    now rewrite <- app_assoc.
  - rewrite (proj2 (until_split _ s l) E). simpl.
    change (if auto_derive_type_ (settings_ this) then detectType l
            else Ok (AnyString l)) with (field_value this l).
    destruct (field_value this l) as [v| | |]; reflexivity.
Qed.

Lemma convert_text this : forall fields,
  auto_derive_type_ (settings_ this) = false ->
  convert this fields = Ok (map AnyString fields).
Proof.
  intros fields H. induction fields as [|f rest IH]; [reflexivity|].
  simpl. unfold field_value. rewrite H, IH. reflexivity.
Qed.

(** ** The AUTO scan *)

(** On a stream that holds a prefix free of line-end characters and then
    a terminator, the scan collects the prefix, consumes the terminator
    and fixes the mode. *)
Lemma parse_auto_prefix this t rest :
  t = cr \/ t = nl ->
  forall p fuel line,
    contains cr p = false -> contains nl p = false ->
    (String.length p + 1 <= fuel)%nat ->
    parse_auto fuel this (istringstream (p ++ String t rest)) line
    = Some (fix_ending this t, istringstream rest, line ++ p).
Proof.
  intros Ht. induction p as [|ch p IH]; intros fuel line Hcr Hnl Hf.
  - destruct fuel as [|fuel]; [simpl in Hf; lia|].
    simpl. rewrite append_nil_r. unfold fix_ending, ending_for.
    destruct Ht; subst t; reflexivity.
  - destruct fuel as [|fuel]; [simpl in Hf; lia|].
    simpl in Hcr, Hnl, Hf.
    apply orb_false_elim in Hcr as [Hc1 Hc2].
    apply orb_false_elim in Hnl as [Hn1 Hn2].
    simpl. rewrite Hc1, Hn1.
    change (mk_istream (p ++ String t rest) false false)
      with (istringstream (p ++ String t rest)).
    rewrite IH by (auto; lia).
    unfold push_back. rewrite append_assoc. reflexivity.
Qed.

(** ** The loop over the data lines *)

(** The loop neither touches the settings nor the titles. *)
Lemma parse_rows_frame : forall fuel delim this src line,
  settings_ (snd (fst (parse_rows fuel delim this src line))) = settings_ this
  /\ title_ (snd (fst (parse_rows fuel delim this src line))) = title_ this.
Proof.
  induction fuel as [|fuel IH]; intros delim this src line; [now simpl|].
  simpl. destruct (getline src line delim) as [src1 line1].
  destruct (std.empty line1).
  - destruct (negb (eof src1)); now simpl.
  - destruct (parse_row _ _ _ _) as [row| | |]; try (now simpl).
    destruct (negb (_ =? _)%nat); [now simpl|].
    destruct (eof _); [now simpl|].
    destruct (IH delim
                (mk_CSV (settings_ this) (title_ this) (values_ this ++ [row]))
                (skip_after_cr delim src1) line1) as [H1 H2].
    now rewrite H1, H2.
Qed.

(** The loop keeps the table invariant, however it ends. *)
Lemma parse_rows_invariant : forall fuel delim this src line,
  row_invariant this ->
  row_invariant (snd (fst (parse_rows fuel delim this src line))).
Proof.
  induction fuel as [|fuel IH]; intros delim this src line Hinv; [now simpl|].
  simpl. destruct (getline src line delim) as [src1 line1].
  destruct (std.empty line1).
  - destruct (negb (eof src1)); now simpl.
  - destruct (parse_row _ _ _ _) as [row| | |]; try (now simpl).
    destruct (Nat.eqb_spec (List.length row) (getColumnCount this)) as [E|E];
      simpl negb; cbv iota; [|now simpl].
    assert (Hinv' : row_invariant
              (mk_CSV (settings_ this) (title_ this) (values_ this ++ [row]))).
    { unfold row_invariant in *; simpl. apply Forall_app. split; auto. }
    destruct (eof _); [now simpl|]. now apply IH.
Qed.

(** ** Joined fields *)

Lemma contains_append c : forall a b,
  contains c (a ++ b) = contains c a || contains c b.
Proof.
  induction a as [|ch a IH]; intros b; simpl; [reflexivity|].
  now rewrite IH, orb_assoc.
Qed.

Lemma contains_join c sep : forall fields,
  Ascii.eqb sep c = false ->
  Forall (fun f => contains c f = false) fields ->
  contains c (join sep fields) = false.
Proof.
  intros fields Hsep. induction fields as [|f rest IH]; intros HF; [reflexivity|].
  inversion HF as [|? ? Hf HF']; subst.
  destruct rest as [|g rest']; [exact Hf|].
  rewrite join_cons, contains_append. simpl.
  now rewrite Hf, Hsep, IH.
Qed.

Lemma join_last_nonempty sep : forall fields,
  last fields "" <> "" -> join sep fields <> "".
Proof.
  induction fields as [|f rest IH]; intros Hl; [now simpl in Hl|].
  destruct rest as [|g rest']; [exact Hl|].
  rewrite join_cons. intros E. destruct f; simpl in E; discriminate.
Qed.

Lemma drop_last_empty_id : forall fields,
  last fields "" <> "" -> drop_last_empty fields = fields.
Proof.
  induction fields as [|f rest IH]; intros Hl; [reflexivity|].
  destruct rest as [|g rest'].
  - simpl in *. destruct f; [congruence | reflexivity].
  - rewrite drop_last_empty_cons by discriminate. now rewrite IH.
Qed.

Lemma length_lines_text sep term : forall lines,
  (List.length lines <= String.length (lines_text sep (String cr term) lines))%nat.
Proof.
  induction lines as [|l rest IH]; simpl; [lia|].
  rewrite length_append. simpl. rewrite length_append. lia.
Qed.

Lemma render_texts this : forall l,
  auto_derive_type_ (settings_ this) = false ->
  render (cell_text this) (texts l) = Ok l.
Proof.
  intros l H. unfold cell_text. rewrite H. simpl negb. cbv iota.
  induction l as [|f rest IH]; [reflexivity|]. simpl. now rewrite IH.
Qed.

Lemma clean_field_sep sep f :
  clean_field sep f = true -> contains sep f = false.
Proof.
  unfold clean_field. intros H. apply andb_prop in H as [H _].
  now destruct (contains sep f).
Qed.

Lemma clean_field_cr sep f :
  clean_field sep f = true -> contains cr f = false.
Proof.
  unfold clean_field. intros H. apply andb_prop in H as [_ H].
  now destruct (contains cr f).
Qed.

(** The data loop in CRLF mode reads back the lines [write] produced from
    clean rows, and stops normally at the end of the stream. *)
Lemma parse_rows_lines : forall lines fuel this line0,
  auto_derive_type_ (settings_ this) = false ->
  Ascii.eqb (separator_ (settings_ this)) cr = false ->
  Forall (clean_row (separator_ (settings_ this)) (List.length (title_ this)))
         lines ->
  (List.length lines + 1 <= fuel)%nat ->
  parse_rows fuel cr this
    (istringstream (lines_text (separator_ (settings_ this)) crlf lines)) line0
  = (Ok 0,
     mk_CSV (settings_ this) (title_ this)
            (values_ this ++ map texts lines)%list,
     mk_istream "" true true).
Proof.
  induction lines as [|l rest IH]; intros fuel this line0 Hoff Hsep HF Hf.
  - destruct fuel as [|fuel]; [simpl in Hf; lia|].
    simpl. rewrite app_nil_r. now destruct this.
  - destruct fuel as [|fuel]; [simpl in Hf; lia|].
    inversion HF as [|? ? (Hlen & Hclean & Hne) HF']; subst.
    set (sep := separator_ (settings_ this)) in *.
    assert (Hcr : contains cr (join sep l) = false).
    { apply contains_join; [exact Hsep|].
      eapply Forall_impl; [|exact Hclean]. intros f. apply clean_field_cr. }
    assert (Hl : l <> []) by (intros ->; now apply Hne).
    assert (Hrow : parse_row (line_fuel (join sep l)) this
                     (istringstream (join sep l)) [] = Ok (texts l)).
    { rewrite parse_row_split by (unfold line_fuel; lia). fold sep.
      rewrite split_join; auto.
      - rewrite convert_text by assumption. reflexivity.
      - eapply Forall_impl; [|exact Hclean]. intros f. apply clean_field_sep. }
    unfold istringstream at 1.
    change (lines_text sep crlf (l :: rest))
      with (join sep l ++ String cr (String nl (lines_text sep crlf rest))).
    unfold parse_rows; fold parse_rows.
    rewrite getline_good, until_clean_delim by exact Hcr.
    destruct (join sep l) as [|ch jl] eqn:Ej; [congruence|].
    simpl std.empty. cbv iota. rewrite <- Ej in *.
    change (skip_after_cr cr (mk_istream (String nl (lines_text sep crlf rest))
                                false false))
      with (istringstream (lines_text sep crlf rest)).
    rewrite Hrow. unfold texts at 1. rewrite length_map.
    unfold getColumnCount. rewrite Hlen, Nat.eqb_refl. simpl negb. cbv iota.
    simpl eof. cbv iota.
    rewrite IH;
      [ | exact Hoff | exact Hsep | exact HF' | simpl in Hf; lia ].
    simpl. rewrite <- app_assoc. reflexivity.
Qed.

(** ** [parse] in AUTO mode *)

Lemma detect_header_auto this p t rest :
  ending_ (settings_ this) = AUTO ->
  contains cr p = false -> contains nl p = false ->
  t = cr \/ t = nl ->
  detect_header this (istringstream (p ++ String t rest))
    = Some (fix_ending this t, istringstream rest, p).
Proof.
  intros Hauto Hcr Hnl Ht.
  unfold detect_header. rewrite Hauto. simpl is_AUTO. cbv iota.
  rewrite (parse_auto_prefix this t rest Ht p) by
    (auto; unfold stream_fuel; simpl; rewrite length_append; lia).
  reflexivity.
Qed.

Lemma delim_of_fix_ending this t :
  t = cr \/ t = nl -> delim_of (fix_ending this t) = t.
Proof. intros [-> | ->]; reflexivity. Qed.

(** With a header line that is not empty, the rest of [parse] is the loop
    over the data lines, entered with the titles of the header line. *)
Lemma parse_auto_mode this p t rest :
  ending_ (settings_ this) = AUTO ->
  contains cr p = false -> contains nl p = false ->
  t = cr \/ t = nl ->
  p <> "" ->
  parse this (istringstream (p ++ String t rest))
  = parse_rows (stream_fuel (skip_after_cr t (istringstream rest))) t
      (mk_CSV (settings_ (fix_ending this t))
              (drop_last_empty (split (separator_ (settings_ this)) p)) [])
      (skip_after_cr t (istringstream rest)) p.
Proof.
  intros Hauto Hcr Hnl Ht Hp. unfold parse.
  rewrite (detect_header_auto this p t rest Hauto Hcr Hnl Ht).
  rewrite (delim_of_fix_ending this t Ht).
  destruct p as [|ch p]; [congruence|]. simpl std.empty. cbv iota.
  rewrite parse_titles_split by (unfold line_fuel; lia).
  reflexivity.
Qed.

Lemma Forall2_render_texts this : forall lines,
  auto_derive_type_ (settings_ this) = false ->
  Forall2 (fun line strs => render (cell_text this) line = Ok strs)
          (map texts lines) lines.
Proof.
  intros lines H. induction lines as [|l rest IH]; simpl; constructor; auto.
  now apply render_texts.
Qed.

Lemma clean_title_parts sep t :
  clean_title sep t = true ->
  contains sep t = false /\ contains cr t = false /\ contains nl t = false.
Proof.
  unfold clean_title. intros H.
  apply andb_prop in H as [H Hn]. apply andb_prop in H as [Hs Hc].
  destruct (contains sep t), (contains cr t), (contains nl t);
    simpl in *; auto; discriminate.
Qed.

(** ** The table invariant *)

Lemma Forall_firstn {A} (P : A -> Prop) : forall n l,
  Forall P l -> Forall P (firstn n l).
Proof.
  induction n as [|n IH]; intros l H; [constructor|].
  destruct l as [|x l]; [constructor|].
  inversion H; subst. simpl. constructor; auto.
Qed.

Lemma Forall_skipn {A} (P : A -> Prop) : forall n l,
  Forall P l -> Forall P (skipn n l).
Proof.
  induction n as [|n IH]; intros l H; [exact H|].
  destruct l as [|x l]; [constructor|].
  inversion H; subst. simpl. auto.
Qed.

Lemma row_invariant_no_rows s title : row_invariant (mk_CSV s title []).
Proof. constructor. Qed.

Lemma parse_invariant this src :
  row_invariant this -> row_invariant (snd (fst (parse this src))).
Proof.
  intros Hinv. unfold parse.
  destruct (detect_header this src) as [[[this1 src1] line]|] eqn:Ed;
    [|exact Hinv].
  destruct (detect_header_table _ _ _ _ _ Ed) as [Ht Hv].
  destruct (std.empty line).
  - simpl. unfold row_invariant in *. now rewrite Ht, Hv.
  - destruct (parse_titles _ _ _ _) as [title|].
    + apply parse_rows_invariant, row_invariant_no_rows.
    + simpl. apply row_invariant_no_rows.
Qed.

(** ** The writer *)

Lemma size_add_assoc (ret a b : Z) :
  size_add (size_add ret a) b = size_add ret (a + b).
Proof.
  unfold size_add. rewrite Zplus_mod_idemp_l. f_equal. lia.
Qed.

Lemma put_put (a b : string) (w : wstate) : put b (put a w) = put (a ++ b) w.
Proof.
  destruct w as [des ret]. unfold put; simpl.
  rewrite append_assoc, size_add_assoc, length_append, Nat2Z.inj_add.
  reflexivity.
Qed.

Lemma SIZE_MAX_value : SIZE_MAX = 18446744073709551615.
Proof. reflexivity. Qed.

Lemma in_range_put str w : in_range (put str w).
Proof.
  unfold in_range, put, size_add; simpl.
  pose proof (Z.mod_pos_bound (snd w + Z.of_nat (String.length str))
                (SIZE_MAX + 1) ltac:(reflexivity)) as H.
  rewrite SIZE_MAX_value in *.
  change (18446744073709551615 + 1) with 18446744073709551616 in *. lia.
Qed.

Lemma put_empty w : in_range w -> put "" w = w.
Proof.
  destruct w as [des ret]. unfold in_range, put, size_add; simpl. intros H.
  rewrite SIZE_MAX_value in *.
  change (18446744073709551615 + 1) with 18446744073709551616 in *.
  rewrite append_nil_r, Z.add_0_r, Z.mod_small by lia. reflexivity.
Qed.

Lemma in_range_start (des : ostream) : in_range (des, 0).
Proof. unfold in_range; rewrite SIZE_MAX_value; simpl. lia. Qed.

#[local] Hint Resolve in_range_put in_range_start : core.

Lemma write_titles_join this : forall title w,
  in_range w ->
  write_titles this title w = put (join (separator_ (settings_ this)) title) w.
Proof.
  induction title as [|t rest IH]; intros w Hw.
  - simpl. now rewrite put_empty.
  - destruct rest as [|t' rest'].
    + reflexivity.
    + change (write_titles this (t :: t' :: rest') w)
        with (write_titles this (t' :: rest') (put_separator this (put t w))).
      unfold put_separator. rewrite IH by auto.
      rewrite !put_put, join_cons. reflexivity.
Qed.

Lemma write_line_render this cell : forall line strs w,
  in_range w ->
  render cell line = Ok strs ->
  write_line this cell line w
    = (Ok tt, put (join (separator_ (settings_ this)) strs) w).
Proof.
  induction line as [|v rest IH]; intros strs w Hw Hr.
  - simpl in Hr. inversion Hr; subst. simpl. now rewrite put_empty.
  - simpl in Hr. destruct (cell v) as [str| | |] eqn:Ev; try discriminate.
    simpl in Hr.
    destruct (render cell rest) as [strs'| | |] eqn:Er; try discriminate.
    inversion Hr; subst; clear Hr.
    destruct rest as [|v' rest'].
    + simpl in Er. inversion Er; subst. simpl. rewrite Ev. reflexivity.
    + simpl write_line. rewrite Ev.
      change (write_line this cell (v' :: rest') (put_separator this (put str w))
              = (Ok tt, put (join (separator_ (settings_ this)) (str :: strs')) w)).
      unfold put_separator. rewrite (IH strs') by auto.
      destruct strs' as [|s' strs''].
      * simpl in Er. destruct (cell v'); try discriminate.
        simpl in Er. destruct (render cell rest'); discriminate.
      * rewrite !put_put, join_cons. reflexivity.
Qed.

Lemma put_ending_terminator this w : put_ending this w = put (terminator this) w.
Proof. unfold put_ending, terminator. now destruct (is_LF _). Qed.

Lemma write_rows_render this cell : forall values lines w,
  in_range w ->
  Forall2 (fun line strs => render cell line = Ok strs) values lines ->
  write_rows this cell values w
    = (Ok tt, put (lines_text (separator_ (settings_ this)) (terminator this)
                              lines) w).
Proof.
  induction values as [|line rest IH]; intros lines w Hw HF.
  - inversion HF; subst. simpl. now rewrite put_empty.
  - inversion HF as [|? strs ? lines' Hr HF']; subst. simpl.
    rewrite (write_line_render _ _ _ strs) by auto.
    rewrite put_ending_terminator, IH with (lines := lines')
      by (auto; rewrite put_ending_terminator; auto).
    rewrite !put_put, ?append_assoc. reflexivity.
Qed.

(** [write] on a table with a title row, all of whose cells convert. *)
Lemma write_render this des lines :
  empty this = false ->
  Forall2 (fun line strs => render (cell_text this) line = Ok strs)
          (values_ this) lines ->
  write this des
    = (Ok (Z.of_nat (String.length (table_text this lines)) mod (SIZE_MAX + 1)),
       des ++ table_text this lines).
Proof.
  intros He HF. unfold write. rewrite He. simpl negb. cbv iota.
  rewrite write_titles_join, put_ending_terminator by auto.
  fold (cell_text this).
  rewrite write_rows_render with (lines := lines) by auto.
  rewrite !put_put. unfold put, table_text; simpl.
  rewrite ?append_assoc. reflexivity.
Qed.

(** [write] looks at the line ending only through the test [== LF]. *)
Section WriteSettings.

Variables a b : CSV.
Hypothesis same_separator :
  separator_ (settings_ a) = separator_ (settings_ b).
Hypothesis same_inference :
  auto_derive_type_ (settings_ a) = auto_derive_type_ (settings_ b).
Hypothesis same_precision :
  double_precision_ (settings_ a) = double_precision_ (settings_ b).
Hypothesis same_LF_test :
  is_LF (ending_ (settings_ a)) = is_LF (ending_ (settings_ b)).
Hypothesis same_titles : title_ a = title_ b.
Hypothesis same_values : values_ a = values_ b.

Lemma put_separator_settings w : put_separator a w = put_separator b w.
Proof. unfold put_separator. now rewrite same_separator. Qed.

Lemma put_ending_settings w : put_ending a w = put_ending b w.
Proof. unfold put_ending. now rewrite same_LF_test. Qed.

Lemma write_titles_settings : forall title w,
  write_titles a title w = write_titles b title w.
Proof.
  induction title as [|t rest IH]; intros w; [reflexivity|].
  destruct rest as [|t' rest']; [reflexivity|].
  change (write_titles a (t' :: rest') (put_separator a (put t w))
          = write_titles b (t' :: rest') (put_separator b (put t w))).
  now rewrite put_separator_settings, IH.
Qed.

Lemma write_line_settings cell cell' :
  (forall v, cell v = cell' v) ->
  forall line w, write_line a cell line w = write_line b cell' line w.
Proof.
  intros Hc. induction line as [|v rest IH]; intros w; [reflexivity|].
  simpl. rewrite <- Hc. destruct (cell v); try reflexivity.
  destruct rest as [|v' rest']; [reflexivity|].
  now rewrite put_separator_settings, IH.
Qed.

Lemma write_rows_settings cell cell' :
  (forall v, cell v = cell' v) ->
  forall values w, write_rows a cell values w = write_rows b cell' values w.
Proof.
  intros Hc. induction values as [|line rest IH]; intros w; [reflexivity|].
  simpl. rewrite (write_line_settings cell cell' Hc).
  destruct (write_line b cell' line w) as [[[]| | |] w']; try reflexivity.
  now rewrite put_ending_settings, IH.
Qed.

Lemma anyToString_settings v : anyToString a v = anyToString b v.
Proof. destruct v; simpl; try reflexivity. now rewrite same_precision. Qed.

Lemma write_settings des : write a des = write b des.
Proof.
  unfold write, empty.
  rewrite <- same_titles, <- same_values, <- same_inference.
  destruct (title_ a) as [|t ts]; [reflexivity|]. simpl negb. cbv iota.
  rewrite write_titles_settings, put_ending_settings.
  destruct (auto_derive_type_ (settings_ a)); simpl negb; cbv iota.
  - now rewrite (write_rows_settings _ _ anyToString_settings).
  - now rewrite (write_rows_settings any_cast_string any_cast_string
                   (fun v => eq_refl)).
Qed.

End WriteSettings.

(** ** Termination of [parse] *)

Lemma bind_defined {A B} (r : result A) (k : A -> result B) :
  defined r -> (forall a, defined (k a)) -> defined (bind r k).
Proof. destruct r; simpl; auto. Qed.

Lemma stoll_defined str : defined (stoll str).
Proof.
  unfold stoll. destruct (take_sign _) as [neg s].
  destruct (take_digits s 0 0) as [[v n] r].
  destruct (n =? 0)%nat; simpl; auto.
  destruct (_ && _); simpl; auto.
Qed.

Lemma stod_defined str : defined (stod str).
Proof.
  unfold stod. destruct (take_sign _) as [neg s].
  destruct (take_digits s 0 0) as [[mi ni] r].
  destruct (match r with
            | "" => (mi, 0%nat, r)
            | String ch r' =>
                if Ascii.eqb ch "." then take_digits r' mi 0
                else (mi, 0%nat, r)
            end) as [[m nf] r2].
  destruct (ni + nf =? 0)%nat; simpl; auto.
  destruct (strtod_round neg m nf) as [x []]; simpl; auto.
Qed.

Lemma at_defined str pos : defined (at_ str pos).
Proof. unfold at_. destruct (String.get pos str); simpl; auto. Qed.

Lemma erase_defined str pos n : defined (erase str pos n).
Proof. unfold erase. destruct (_ <? _)%nat; simpl; auto. Qed.

Lemma detectType_defined str : defined (detectType str).
Proof.
  unfold detectType. apply bind_defined.
  - unfold strip_quotes. apply bind_defined; [apply at_defined|].
    intros first. destruct (Ascii.eqb first dquote); simpl; auto.
    apply bind_defined; [apply at_defined|].
    intros last. destruct (Ascii.eqb last dquote); simpl; auto.
    apply bind_defined; [apply erase_defined|].
    intros s1. apply erase_defined.
  - intros s1. destruct (numeric_scan s1 true false) as [[]|]; simpl; auto.
    + apply bind_defined; [apply stod_defined | simpl; auto].
    + apply bind_defined; [apply stoll_defined | simpl; auto].
Qed.

Lemma convert_defined this : forall fields, defined (convert this fields).
Proof.
  induction fields as [|f rest IH]; simpl; auto.
  apply bind_defined.
  - unfold field_value. destruct (auto_derive_type_ _); simpl; auto.
    apply detectType_defined.
  - intros v. apply bind_defined; simpl; auto.
Qed.

Lemma parse_row_defined this line :
  defined (parse_row (line_fuel line) this (istringstream line) []).
Proof.
  rewrite parse_row_split by (unfold line_fuel; lia).
  apply bind_defined; [apply convert_defined | simpl; auto].
Qed.

Lemma usable_cases src :
  usable src ->
  eofbit src = true \/ src = mk_istream (buf src) false false.
Proof.
  destruct src as [b e f]; unfold usable; simpl.
  destruct e; auto. intros [H|H]; [discriminate | subst; auto].
Qed.

Lemma skip_after_cr_measure delim src :
  usable src ->
  usable (skip_after_cr delim src)
  /\ (measure (skip_after_cr delim src) <= measure src)%nat.
Proof.
  intros Hu. unfold skip_after_cr.
  destruct (Ascii.eqb delim cr); [|split; auto].
  destruct (usable_cases src Hu) as [He | Hg].
  - destruct src as [b e f]; simpl in He; subst e.
    unfold get, good, usable, measure; simpl. split; auto.
  - rewrite Hg. destruct (buf src) as [|ch r];
      unfold get, good, usable, measure; simpl; split; auto; lia.
Qed.

Lemma getline_measure src line delim :
  usable src ->
  usable (fst (getline src line delim))
  /\ (eofbit (fst (getline src line delim)) = false ->
      (measure (fst (getline src line delim)) < measure src)%nat).
Proof.
  intros Hu. destruct (usable_cases src Hu) as [He | Hg].
  - destruct src as [b e f]; simpl in He; subst e.
    rewrite getline_at_eof. unfold usable; simpl. split; auto. discriminate.
  - rewrite Hg, getline_good.
    destruct (until delim (buf src)) as [l [r|]] eqn:E; simpl.
    + unfold usable, measure; simpl. split; auto.
      intros _. apply until_length in E. lia.
    + unfold usable; simpl. split; auto. discriminate.
Qed.

(** The loop over the data lines ends on every usable stream. *)
Lemma parse_rows_defined : forall fuel delim this src line,
  usable src -> (measure src <= fuel)%nat ->
  defined (fst (fst (parse_rows fuel delim this src line))).
Proof.
  induction fuel as [|fuel IH]; intros delim this src line Hu Hm.
  - unfold measure in Hm. destruct (eofbit src); lia.
  - simpl. destruct (getline_measure src line delim Hu) as [Hu1 Hm1].
    destruct (getline src line delim) as [src1 line1]. simpl in Hu1, Hm1.
    destruct (std.empty line1).
    + destruct (negb (eof src1)); simpl; auto.
    + destruct (skip_after_cr_measure delim src1 Hu1) as [Hu2 Hm2].
      pose proof (parse_row_defined this line1) as Hrow.
      destruct (parse_row _ _ _ _) as [row| | |]; simpl in Hrow |- *; auto.
      destruct (negb (_ =? _)%nat); simpl; auto.
      destruct (eof (skip_after_cr delim src1)) eqn:Ee; simpl; auto.
      apply IH; auto.
      assert (eofbit src1 = false).
      { destruct (eofbit src1) eqn:E1; auto.
        unfold measure in Hm2. unfold eof in Ee. rewrite Ee, E1 in Hm2. lia. }
      specialize (Hm1 H). lia.
Qed.

(** The AUTO scan ends on every usable stream, ... *)
Lemma parse_auto_defined : forall fuel this src line,
  usable src -> (measure src <= fuel)%nat ->
  exists this' src' line',
    parse_auto fuel this src line = Some (this', src', line') /\ usable src'.
Proof.
  induction fuel as [|fuel IH]; intros this src line Hu Hm.
  - unfold measure in Hm. destruct (eofbit src); lia.
  - simpl. destruct (usable_cases src Hu) as [He | Hg].
    + unfold eof. rewrite He. simpl. eauto.
    + rewrite Hg. unfold eof; simpl.
      unfold measure in Hm. rewrite Hg in Hm; simpl in Hm.
      destruct (buf src) as [|ch r]; unfold get, good; simpl.
      * apply IH; [left; reflexivity | unfold measure; simpl; lia].
      * destruct (Ascii.eqb ch cr);
          [eexists _, _, _; split; [reflexivity | right; reflexivity]|].
        destruct (Ascii.eqb ch nl);
          [eexists _, _, _; split; [reflexivity | right; reflexivity]|].
        apply IH; [right; reflexivity | unfold measure; simpl in *; lia].
Qed.

(** ... and runs forever on a stream that is failed but not at its end: no
    iteration bound is enough. *)
Lemma parse_auto_diverges : forall fuel this src line,
  eofbit src = false -> failbit src = true ->
  parse_auto fuel this src line = None.
Proof.
  induction fuel as [|fuel IH]; intros this src line He Hf; [reflexivity|].
  destruct src as [b e f]; simpl in He, Hf; subst e f.
  simpl. apply IH; reflexivity.
Qed.

Lemma measure_stream_fuel src : (measure src <= stream_fuel src)%nat.
Proof. unfold measure, stream_fuel. destruct (eofbit src); lia. Qed.

(** [parse] ends, by a return or an exception, on every usable stream. *)
Lemma parse_defined this src :
  usable src -> defined (fst (fst (parse this src))).
Proof.
  intros Hu. unfold parse, detect_header.
  assert (Hd : exists this' src' line',
            (if is_AUTO (ending_ (settings_ this))
             then parse_auto (stream_fuel src) this src ""
             else Some (this, src, ""))
            = Some (this', src', line') /\ usable src').
  { destruct (is_AUTO _); [|eauto 6].
    apply parse_auto_defined; auto using measure_stream_fuel. }
  destruct Hd as (this' & src' & line' & -> & Hu').
  destruct (std.empty line'); simpl; auto.
  rewrite parse_titles_split by (unfold line_fuel; lia).
  destruct (skip_after_cr_measure (delim_of this') src' Hu') as [Hu2 _].
  apply parse_rows_defined; auto using measure_stream_fuel.
Qed.

(** Parsing a string always ends. *)
Lemma parse_string_defined str s : defined (parse_string str s).
Proof.
  unfold parse_string, CSV_of_string, CSV_of_istream.
  pose proof (parse_defined (CSV_new s) (istringstream str)
                (or_intror eq_refl)) as H.
  destruct (parse (CSV_new s) (istringstream str)) as [[[z| | |] c] src'];
    simpl in *; auto.
Qed.

(** A separator inside a cell is written as it is, and read back as a
    field boundary: the row is rejected. *)
Lemma separator_in_cell_breaks_roundtrip :
  write example_comma_cell "" = (Ok 8, "a" ++ crlf ++ "x,y" ++ crlf)
  /\ parse_string ("a" ++ crlf ++ "x,y" ++ crlf) settings_AUTO
     = Throw (runtime_error
                "tabxx::CSV::parse(std::istream&): Invalid Dataline").
Proof. split; reflexivity. Qed.

(** ** Lines, terminators and fields: further facts *)

Lemma parse_rows_good_line fuel delim this b line1 line2 :
  parse_rows fuel delim this (istringstream b) line1
  = parse_rows fuel delim this (istringstream b) line2.
Proof.
  destruct fuel as [|fuel]; [reflexivity|].
  unfold istringstream. simpl parse_rows. now rewrite !getline_good.
Qed.

Lemma term_of_cons t : t = cr \/ t = nl ->
  forall rest,
    exists tail,
      term_of t ++ rest = String t tail
      /\ skip_after_cr t (istringstream tail) = istringstream rest.
Proof.
  intros [-> | ->] rest.
  - exists (String nl rest). split; reflexivity.
  - exists rest. split; reflexivity.
Qed.

Lemma clean_for_parts sep t f :
  clean_for sep t f = true -> contains sep f = false /\ contains t f = false.
Proof.
  unfold clean_for. intros H. apply andb_prop in H as [H1 H2].
  destruct (contains sep f), (contains t f); simpl in *; auto; discriminate.
Qed.

Lemma length_lines_text_term sep t : t = cr \/ t = nl ->
  forall lines,
    (List.length lines
     <= String.length (lines_text sep (term_of t) lines))%nat.
Proof.
  intros Ht. induction lines as [|l rest IH]; simpl; [lia|].
  rewrite !length_append.
  assert (1 <= String.length (term_of t))%nat
    by (destruct Ht; subst; simpl; lia).
  lia.
Qed.

Lemma length_split sep : forall s,
  List.length (split sep s) = S (count sep s).
Proof.
  induction s as [|ch s IH]; simpl; [reflexivity|].
  destruct (Ascii.eqb ch sep); simpl; [now rewrite IH|].
  destruct (split sep s) eqn:E; [now apply split_not_nil in E|].
  simpl in *. lia.
Qed.

Lemma join_cons_char sep ch f fs :
  join sep (String ch f :: fs) = String ch (join sep (f :: fs)).
Proof. destruct fs; reflexivity. Qed.

Lemma join_split sep : forall s, join sep (split sep s) = s.
Proof.
  induction s as [|ch s IH]; simpl; [reflexivity|].
  destruct (Ascii.eqb_spec ch sep) as [E|E].
  - subst ch. destruct (split sep s) as [|f fs] eqn:Es;
      [now apply split_not_nil in Es|].
    rewrite join_cons, IH. reflexivity.
  - destruct (split sep s) as [|f fs] eqn:Es;
      [now apply split_not_nil in Es|].
    now rewrite join_cons_char, IH.
Qed.

Lemma split_clean_fields sep : forall s,
  Forall (fun f => contains sep f = false) (split sep s).
Proof.
  induction s as [|ch s IH]; simpl; [repeat constructor|].
  destruct (Ascii.eqb ch sep) eqn:E.
  - constructor; [reflexivity | exact IH].
  - destruct (split sep s) as [|f fs]; [repeat constructor; simpl; now rewrite E|].
    inversion IH; subst. constructor; [|assumption].
    simpl. now rewrite E.
Qed.

(** ** The data loop on lines closed by the fixed terminator *)

Lemma convert_same_inference a b :
  auto_derive_type_ (settings_ a) = auto_derive_type_ (settings_ b) ->
  forall fields, convert a fields = convert b fields.
Proof.
  intros H. induction fields as [|f rest IH]; [reflexivity|].
  simpl. unfold field_value. now rewrite H, IH.
Qed.


Lemma convert_length this : forall fields row,
  convert this fields = Ok row -> List.length row = List.length fields.
Proof.
  induction fields as [|f rest IH]; intros row H; simpl in H.
  - now inversion H.
  - destruct (field_value this f) as [v| | |]; try discriminate.
    simpl in H. destruct (convert this rest) as [vs| | |] eqn:E;
      try discriminate.
    inversion H; subst. simpl. now rewrite (IH vs).
Qed.

Lemma row_reads_ending s e t columns l row :
  row_reads s t columns l row -> row_reads (setEnding s e) t columns l row.
Proof.
  intros (H1 & H2 & H3 & H4). repeat split; auto.
  rewrite <- H4. now apply convert_same_inference.
Qed.

(** One line closed by the terminator of [t], in any mode of inference:
    the loop cuts it at [t], drops the rest of the terminator, converts
    the fields and stores the row, or throws when the number of fields is
    not the number of titles. *)
Lemma parse_rows_one_line_any this t l row rest fuel line0 :
  t = cr \/ t = nl ->
  Ascii.eqb (separator_ (settings_ this)) t = false ->
  row_reads (settings_ this) t (List.length l) l row ->
  parse_rows (S fuel) t this
    (istringstream (join (separator_ (settings_ this)) l ++ term_of t ++ rest))
    line0
  = if (List.length l =? getColumnCount this)%nat then
      parse_rows fuel t
        (mk_CSV (settings_ this) (title_ this) (values_ this ++ [row])%list)
        (istringstream rest) line0
    else
      (Throw (runtime_error
                "tabxx::CSV::parse(std::istream&): Invalid Dataline"),
       this, istringstream rest).
Proof.
  intros Ht Hsep (_ & Hclean & Hne & Hconv).
  set (sep := separator_ (settings_ this)) in *.
  destruct (term_of_cons t Ht rest) as (tail & Etail & Eskip).
  rewrite Etail.
  assert (Hct : contains t (join sep l) = false).
  { apply contains_join; [exact Hsep|].
    eapply Forall_impl; [|exact Hclean]. intros f Hf.
    now apply clean_for_parts in Hf. }
  assert (Hl : l <> []) by (intros ->; now apply Hne).
  assert (Hconv' : convert this l = Ok row).
  { rewrite <- Hconv. now apply convert_same_inference. }
  assert (Hrow : parse_row (line_fuel (join sep l)) this
                   (istringstream (join sep l)) [] = Ok row).
  { rewrite parse_row_split by (unfold line_fuel; lia). fold sep.
    rewrite split_join; auto.
    - now rewrite Hconv'.
    - eapply Forall_impl; [|exact Hclean]. intros f Hf.
      now apply clean_for_parts in Hf. }
  unfold istringstream at 1. unfold parse_rows; fold parse_rows.
  rewrite getline_good, until_clean_delim by exact Hct.
  destruct (join sep l) as [|ch jl] eqn:Ej; [congruence|].
  simpl std.empty. cbv iota. rewrite <- Ej in *.
  change (mk_istream tail false false) with (istringstream tail).
  rewrite Eskip, Hrow, (convert_length _ _ _ Hconv').
  destruct (List.length l =? getColumnCount this)%nat; simpl negb; cbv iota;
    [|reflexivity].
  simpl eof. cbv iota. apply parse_rows_good_line.
Qed.

(** Any number of such lines: every one of them is cut at the same
    delimiter [t], and the rows are stored in order. *)
Lemma parse_rows_run_any t : t = cr \/ t = nl ->
  forall lines rows fuel this rest line0,
    Ascii.eqb (separator_ (settings_ this)) t = false ->
    Forall2 (row_reads (settings_ this) t (List.length (title_ this)))
            lines rows ->
    parse_rows (List.length lines + fuel) t this
      (istringstream
         (lines_text (separator_ (settings_ this)) (term_of t) lines ++ rest))
      line0
    = parse_rows fuel t
        (mk_CSV (settings_ this) (title_ this) (values_ this ++ rows)%list)
        (istringstream rest) line0.
Proof.
  intros Ht. induction lines as [|l more IH];
    intros rows fuel this rest line0 Hsep HF.
  - inversion HF; subst. simpl. rewrite app_nil_r. now destruct this.
  - inversion HF as [|? row ? rows' Hl HF']; subst.
    pose proof Hl as (Hlen & _).
    cbn [List.length Nat.add lines_text]. rewrite !append_assoc.
    rewrite (parse_rows_one_line_any this t l row)
      by (auto; now rewrite Hlen).
    unfold getColumnCount. rewrite Hlen, Nat.eqb_refl.
    pose proof (IH rows' fuel
                  (mk_CSV (settings_ this) (title_ this)
                          (values_ this ++ [row])%list) rest line0
                  Hsep HF') as Hrest.
    cbn [settings_ title_ values_] in Hrest. rewrite Hrest.
    now rewrite <- app_assoc.
Qed.

(** In AUTO mode, a header line followed by its terminator and by data
    lines that are all closed by that same terminator: every data line is
    cut at the delimiter the header line fixed, and [parse] returns 0 with
    the rows in the table. *)
Lemma parse_auto_mode_lines this p t lines rows :
  ending_ (settings_ this) = AUTO ->
  contains cr p = false -> contains nl p = false ->
  t = cr \/ t = nl ->
  p <> "" ->
  separator_ (settings_ this) <> t ->
  Forall2 (row_reads (settings_ this) t
             (List.length
                (drop_last_empty (split (separator_ (settings_ this)) p))))
          lines rows ->
  parse this
    (istringstream
       (p ++ term_of t
          ++ lines_text (separator_ (settings_ this)) (term_of t) lines))
  = (Ok 0,
     mk_CSV (settings_ (fix_ending this t))
            (drop_last_empty (split (separator_ (settings_ this)) p)) rows,
     mk_istream "" true true).
Proof.
  intros Hauto Hcr Hnl Ht Hp Hsep HF.
  apply Ascii.eqb_neq in Hsep.
  set (sep := separator_ (settings_ this)) in *.
  set (titles := drop_last_empty (split sep p)) in *.
  destruct (term_of_cons t Ht (lines_text sep (term_of t) lines))
    as (tail & Etail & Eskip).
  rewrite Etail, parse_auto_mode by assumption.
  fold sep. fold titles. rewrite Eskip.
  set (F := stream_fuel (istringstream (lines_text sep (term_of t) lines))).
  assert (HFu : (List.length lines + 2 <= F)%nat).
  { unfold F, stream_fuel. simpl buf.
    pose proof (length_lines_text_term sep t Ht lines). lia. }
  replace F with (List.length lines + (F - List.length lines))%nat by lia.
  rewrite <- (append_nil_r (lines_text sep (term_of t) lines)).
  pose proof (parse_rows_run_any t Ht lines rows (F - List.length lines)%nat
                (mk_CSV (settings_ (fix_ending this t)) titles []) "" p)
    as Hrun.
  cbn [settings_ title_ values_ app] in Hrun.
  change (separator_ (settings_ (fix_ending this t))) with sep in Hrun.
  rewrite Hrun.
  - destruct (F - List.length lines)%nat as [|f] eqn:Ef; [lia|]. reflexivity.
  - exact Hsep.
  - eapply Forall2_impl; [|exact HF]. intros l row Hl.
    now apply row_reads_ending.
Qed.

(* ================================================================== *)
(** * The properties                                                   *)
(* ================================================================== *)

(** C1 (the code departs from the claim).  Parsing the text
    a,b / 1,2 / 3,4 (LF line ends) with the ending set to LF, separator
    ',' and no type inference: [parse] returns -1 before it reads a single
    character, and the table the constructor delivers has no title and no
    row (not the titles a, b and the two rows of the claim). *)
Theorem C1_parse_LF_example_is_empty :
  parse (CSV_new settings_LF) (istringstream example_LF_text)
    = (Ok (-1), CSV_new settings_LF, istringstream example_LF_text)
  /\ parse_string example_LF_text settings_LF = Ok (mk_CSV settings_LF [] []).
Proof.
  split.
  - apply parse_explicit_ending. reflexivity.
  - reflexivity.
Qed.

(** C2 (the code departs from the claim).  The one-column table with
    title a and the row 1 is valid and its mode is LF; [write] gives the
    text a / 1 for it.  Parsing that text under the same settings returns
    -1 before a single character is read, and the table the constructor
    delivers has no title and no row: the table is not read back.  This
    is the header line that only the AUTO mode reads, as in C1. *)
Lemma C2_roundtrip_fails_with_explicit_ending :
  row_invariant example_LF_table
  /\ ending_ (settings_ example_LF_table) = LF
  /\ write example_LF_table "" = (Ok 4, "a" ++ endl ++ "1" ++ endl)
  /\ parse (CSV_new (settings_ example_LF_table))
       (istringstream ("a" ++ endl ++ "1" ++ endl))
     = (Ok (-1), CSV_new (settings_ example_LF_table),
        istringstream ("a" ++ endl ++ "1" ++ endl))
  /\ parse_string ("a" ++ endl ++ "1" ++ endl) (settings_ example_LF_table)
     = Ok (mk_CSV settings_LF [] [])
  /\ title_ (mk_CSV settings_LF [] []) <> title_ example_LF_table
  /\ values_ (mk_CSV settings_LF [] []) <> values_ example_LF_table.
Proof.
  split; [repeat constructor|].
  repeat split; try reflexivity; discriminate.
Qed.

(** C3 (the code departs from the claim).  In AUTO mode, on a stream
    that starts with a line end, the header line is empty.  [parse] throws
    nothing: it returns -1, and the constructor, which drops that value,
    hands out a table without titles and rows as if the text had been
    read. *)
Lemma C3_empty_header_does_not_throw :
  detect_header (CSV_new settings_AUTO) example_blank_first
    = Some (fix_ending (CSV_new settings_AUTO) cr,
            istringstream (String nl "a,b"), "")
  /\ fst (fst (parse (CSV_new settings_AUTO) example_blank_first)) = Ok (-1)
  /\ fst (CSV_of_istream example_blank_first settings_AUTO)
     = Ok (mk_CSV (setEnding settings_AUTO CRLF) [] []).
Proof. repeat split. Qed.

(** C4 (the code departs from the claim).  [detectType] applied to the
    empty string does not return Text of the empty string: [str.at(0)]
    throws [std::out_of_range]. *)
Theorem C4_detectType_empty_throws :
  detectType "" = Throw out_of_range.
Proof. reflexivity. Qed.

(** C5.  [detectType] of 123 is Integer 123; of 12.5 is Float 12.5 (the
    binary64 number whose exact value is 25/2); of 12.5.3 is Text 12.5.3;
    of the quoted abc is Text abc; of -7 is Integer -7. *)
Theorem C5_detectType_examples :
  detectType "123" = Ok (Integer 123)
  /\ (detectType "12.5" = Ok (Float double_12_5) /\ represents double_12_5 25 2)
  /\ detectType "12.5.3" = Ok (Text "12.5.3")
  /\ detectType quoted_abc = Ok (Text "abc")
  /\ detectType "-7" = Ok (Integer (-7)).
Proof.
  repeat split; vm_compute; reflexivity.
Qed.

(** C6.  In AUTO mode [parse] reads the stream character by character up
    to the first CR or LF.  The characters before it are the header line;
    a CR fixes the mode to CRLF and an LF fixes it to LF.  When the header
    line is not empty, the character after a CR (the LF of the pair) is
    extracted and dropped, and the rest of the parse is the loop over the
    data lines with the fixed terminator; the mode stays fixed in the
    object when [parse] ends.  Every later line is cut at that terminator:
    for any number of data lines that are each closed by it (CR LF after a
    CR, LF after an LF), whose fields hold neither the separator nor the
    delimiter and are accepted by the cell conversion, [parse] returns 0
    and stores exactly these lines, row by row and in order; a bare LF
    inside a field of a CR LF text, or a CR inside a field of an LF text,
    stays in its cell. *)
Theorem C6_auto_mode_sniffs_first_terminator
    (this : CSV) (p rest : string) (t : ascii) :
  ending_ (settings_ this) = AUTO ->
  contains cr p = false ->
  contains nl p = false ->
  t = cr \/ t = nl ->
  detect_header this (istringstream (p ++ String t rest))
    = Some (fix_ending this t, istringstream rest, p)
  /\ (t = cr -> ending_ (settings_ (fix_ending this t)) = CRLF)
  /\ (t = nl -> ending_ (settings_ (fix_ending this t)) = LF)
  /\ delim_of (fix_ending this t) = t
  /\ (p <> "" ->
      parse this (istringstream (p ++ String t rest))
      = parse_rows (stream_fuel (skip_after_cr t (istringstream rest))) t
          (mk_CSV (settings_ (fix_ending this t))
                  (drop_last_empty (split (separator_ (settings_ this)) p)) [])
          (skip_after_cr t (istringstream rest)) p)
  /\ (forall rest', t = cr -> rest = String nl rest' ->
      skip_after_cr t (istringstream rest) = istringstream rest')
  /\ (t = nl -> skip_after_cr t (istringstream rest) = istringstream rest)
  /\ ending_ (settings_
        (snd (fst (parse this (istringstream (p ++ String t rest))))))
     = ending_for t
  /\ (forall lines rows,
        p <> "" ->
        separator_ (settings_ this) <> t ->
        Forall2 (row_reads (settings_ this) t
                   (List.length
                      (drop_last_empty
                         (split (separator_ (settings_ this)) p))))
                lines rows ->
        parse this
          (istringstream
             (p ++ term_of t
                ++ lines_text (separator_ (settings_ this)) (term_of t) lines))
        = (Ok 0,
           mk_CSV (settings_ (fix_ending this t))
                  (drop_last_empty (split (separator_ (settings_ this)) p))
                  rows,
           mk_istream "" true true)).
Proof.
  intros Hauto Hcr Hnl Ht.
  pose proof (detect_header_auto this p t rest Hauto Hcr Hnl Ht) as Hd.
  pose proof (parse_auto_mode this p t rest Hauto Hcr Hnl Ht) as Hparse.
  split; [exact Hd|].
  split; [intros ->; reflexivity|].
  split; [intros ->; reflexivity|].
  split; [now apply delim_of_fix_ending|].
  split; [exact Hparse|].
  split; [intros rest' -> ->; reflexivity|].
  split; [intros ->; reflexivity|].
  split.
  - destruct p as [|ch p].
    + unfold parse. rewrite Hd. reflexivity.
    + rewrite Hparse by discriminate.
      rewrite (proj1 (parse_rows_frame _ _ _ _ _)). reflexivity.
  - intros lines rows Hp Hsep HF.
    now apply parse_auto_mode_lines.
Qed.

Lemma C6_auto_mode_sniffs_first_terminator_witness :
  detect_header (CSV_new settings_AUTO) (istringstream example_CRLF_text)
    = Some (fix_ending (CSV_new settings_AUTO) cr,
            istringstream
              (String nl ("1,2" ++ crlf ++ "3" ++ endl ++ ",4" ++ crlf)),
            "a,b")
  /\ parse (CSV_new settings_AUTO) (istringstream example_CRLF_text)
     = (Ok 0,
        mk_CSV (setEnding settings_AUTO CRLF) ["a"; "b"]
               [[Text "1"; Text "2"]; [Text ("3" ++ endl); Text "4"]],
        mk_istream "" true true)
  /\ parse (CSV_new settings_AUTO) (istringstream example_LF_text_with_CR)
     = (Ok 0,
        mk_CSV (setEnding settings_AUTO LF) ["a"; "b"]
               [[Text "1"; Text "2"];
                [Text "3"; Text (String "4" (String cr ""))]],
        mk_istream "" true true).
Proof.
  pose proof (C6_auto_mode_sniffs_first_terminator (CSV_new settings_AUTO)
                "a,b"
                (String nl ("1,2" ++ crlf ++ "3" ++ endl ++ ",4" ++ crlf)) cr
                eq_refl eq_refl eq_refl (or_introl eq_refl))
    as (Hd & _ & _ & _ & _ & _ & _ & _ & Hlines).
  pose proof (C6_auto_mode_sniffs_first_terminator (CSV_new settings_AUTO)
                "a,b" "" nl eq_refl eq_refl eq_refl (or_intror eq_refl))
    as (_ & _ & _ & _ & _ & _ & _ & _ & Hlines').
  split; [exact Hd|]. split.
  - apply (Hlines [["1"; "2"]; ["3" ++ endl; "4"]]
                  [[Text "1"; Text "2"]; [Text ("3" ++ endl); Text "4"]]).
    + discriminate.
    + discriminate.
    + repeat constructor; discriminate.
  - apply (Hlines' [["1"; "2"]; ["3"; String "4" (String cr "")]]
                   [[Text "1"; Text "2"];
                    [Text "3"; Text (String "4" (String cr ""))]]).
    + discriminate.
    + discriminate.
    + repeat constructor; discriminate.
Defined.



(** C8.  [addRow] with a sequence whose length differs from the number of
    titles throws the Invalid value count error and leaves the table as it
    was; in particular the row count is unchanged. *)
Theorem C8_addRow_mismatch_rejected (this : CSV) (l : list any) :
  List.length l <> List.length (title_ this) ->
  addRow this l
    = (Throw (runtime_error "tabxx::CSV::addRow(): Invalid value count"), this)
  /\ getRowCount (snd (addRow this l)) = getRowCount this.
Proof.
  intros Hlen. unfold addRow.
  destruct (Nat.eqb_spec (List.length l) (List.length (title_ this))) as [E|E].
  - contradiction.
  - simpl. split; reflexivity.
Qed.

Lemma C8_addRow_mismatch_witness :
  addRow (mk_CSV settings_LF ["a"; "b"] [[Text "1"; Text "2"]]) [Text "3"]
    = (Throw (runtime_error "tabxx::CSV::addRow(): Invalid value count"),
       mk_CSV settings_LF ["a"; "b"] [[Text "1"; Text "2"]])
  /\ getRowCount
       (snd (addRow (mk_CSV settings_LF ["a"; "b"] [[Text "1"; Text "2"]])
                    [Text "3"]))
     = getRowCount (mk_CSV settings_LF ["a"; "b"] [[Text "1"; Text "2"]]).
Proof.
  apply (C8_addRow_mismatch_rejected
           (mk_CSV settings_LF ["a"; "b"] [[Text "1"; Text "2"]]) [Text "3"]).
  simpl. lia.
Defined.

(** C9.  Every operation on a table keeps the invariant that each stored
    row is as long as the title row: [parse] (however it ends), [addRow],
    both [removeRow], [setTitle] and [clear].  A row of another length is
    not stored: [addRow] throws and changes nothing, and the data loop of
    [parse] throws the Invalid Dataline error without storing the row. *)
Theorem C9_row_invariant_preserved (this : CSV) :
  row_invariant this ->
  (forall src, row_invariant (snd (fst (parse this src))))
  /\ (forall l, row_invariant (snd (addRow this l)))
  /\ (forall index, row_invariant (snd (removeRow this index)))
  /\ (forall begin end_, row_invariant (snd (removeRow_range this begin end_)))
  /\ (forall t, row_invariant (setTitle this t))
  /\ row_invariant (clear this)
  /\ (forall l, List.length l <> List.length (title_ this) ->
        addRow this l
        = (Throw (runtime_error "tabxx::CSV::addRow(): Invalid value count"),
           this))
  /\ (forall fuel delim src line src1 line1 row,
        getline src line delim = (src1, line1) ->
        std.empty line1 = false ->
        parse_row (line_fuel line1) this (istringstream line1) [] = Ok row ->
        List.length row <> getColumnCount this ->
        parse_rows (S fuel) delim this src line
        = (Throw (runtime_error
                    "tabxx::CSV::parse(std::istream&): Invalid Dataline"),
           this, skip_after_cr delim src1)).
Proof.
  intros Hinv. repeat split.
  - intros src. now apply parse_invariant.
  - intros l. unfold addRow.
    destruct (Nat.eqb_spec (List.length l) (List.length (title_ this)));
      simpl; [|exact Hinv].
    unfold row_invariant in *; simpl. apply Forall_app; split; auto.
  - intros index. unfold removeRow.
    destruct (_ <=? _)%nat; simpl; [exact Hinv|].
    unfold row_invariant in *; simpl.
    apply Forall_app; split;
      [now apply Forall_firstn | now apply (Forall_skipn _ (S index))].
  - intros b e. unfold removeRow_range.
    destruct (_ || _); simpl; [exact Hinv|].
    unfold row_invariant in *; simpl.
    apply Forall_app; split; [now apply Forall_firstn | now apply Forall_skipn].
  - intros t. constructor.
  - constructor.
  - intros l Hl. unfold addRow.
    destruct (Nat.eqb_spec (List.length l) (List.length (title_ this)));
      [contradiction | reflexivity].
  - intros fuel delim src line src1 line1 row Hg He Hr Hl.
    simpl. rewrite Hg, He, Hr.
    destruct (Nat.eqb_spec (List.length row) (getColumnCount this));
      [contradiction | reflexivity].
Qed.

Lemma C9_row_invariant_preserved_witness :
  row_invariant example_AUTO_table
  /\ row_invariant
       (snd (fst (parse example_AUTO_table (istringstream example_LF_text))))
  /\ row_invariant (snd (addRow example_AUTO_table [Text "5"]))
  /\ row_invariant (snd (removeRow example_AUTO_table 0))
  /\ row_invariant (setTitle example_AUTO_table ["x"]).
Proof.
  assert (H : row_invariant example_AUTO_table)
    by (repeat constructor).
  pose proof (C9_row_invariant_preserved example_AUTO_table H)
    as (Hp & Ha & Hr & _ & Ht & _).
  split; [exact H|].
  split; [apply Hp|]. split; [apply Ha|]. split; [apply Hr | apply Ht].
Defined.

(** C10.  A table with a title row whose line-ending mode is still AUTO
    when [write] runs is written exactly as in CRLF mode: the header line
    and every data row end in CR LF. *)
Theorem C10_write_AUTO_like_CRLF (this : CSV) (des : ostream) :
  ending_ (settings_ this) = AUTO ->
  empty this = false ->
  write this des
    = write (with_settings this (setEnding (settings_ this) CRLF)) des
  /\ forall lines,
       Forall2 (fun line strs => render (cell_text this) line = Ok strs)
               (values_ this) lines ->
       exists n,
         write this des
           = (Ok n,
              des ++ join (separator_ (settings_ this)) (title_ this) ++ crlf
                  ++ lines_text (separator_ (settings_ this)) crlf lines).
Proof.
  intros Hauto Hne. split.
  - apply write_settings; try reflexivity. simpl. now rewrite Hauto.
  - intros lines HF. eexists.
    rewrite (write_render this des lines Hne HF).
    unfold table_text, terminator. rewrite Hauto. reflexivity.
Qed.

Lemma C10_write_AUTO_like_CRLF_witness :
  write example_AUTO_table ""
    = write (with_settings example_AUTO_table
               (setEnding (settings_ example_AUTO_table) CRLF)) ""
  /\ forall lines,
       Forall2 (fun line strs =>
                  render (cell_text example_AUTO_table) line = Ok strs)
               (values_ example_AUTO_table) lines ->
       exists n,
         write example_AUTO_table ""
           = (Ok n,
              "" ++ join (separator_ (settings_ example_AUTO_table))
                         (title_ example_AUTO_table) ++ crlf
                 ++ lines_text (separator_ (settings_ example_AUTO_table))
                               crlf lines).
Proof.
  apply (C10_write_AUTO_like_CRLF example_AUTO_table ""); reflexivity.
Defined.

(* ================================================================== *)
(** * Further properties of the class                                  *)
(* ================================================================== *)

(** ** Accessors *)

Lemma searchTitle_loop_shift str : forall title k,
  searchTitle_loop title str k = (k + searchTitle_loop title str 0)%nat.
Proof.
  induction title as [|t rest IH]; intros k; simpl; [lia|].
  destruct (String.eqb t str); [lia|].
  rewrite IH, (IH 1%nat). lia.
Qed.

Lemma searchTitle_loop_bound str : forall title,
  (searchTitle_loop title str 0 <= List.length title)%nat.
Proof.
  induction title as [|t rest IH]; simpl; [lia|].
  destruct (String.eqb t str); [lia|].
  rewrite searchTitle_loop_shift. lia.
Qed.

Lemma searchTitle_loop_found str : forall title,
  In str title ->
  nth_error title (searchTitle_loop title str 0) = Some str.
Proof.
  induction title as [|t rest IH]; intros Hin; [contradiction|].
  simpl. destruct (String.eqb_spec t str) as [E|E].
  - now subst.
  - rewrite searchTitle_loop_shift. simpl. apply IH.
    destruct Hin; [contradiction | assumption].
Qed.

Lemma searchTitle_loop_first str : forall title j,
  (j < searchTitle_loop title str 0)%nat -> nth_error title j <> Some str.
Proof.
  induction title as [|t rest IH]; intros j Hj; simpl in Hj; [lia|].
  destruct (String.eqb_spec t str) as [E|E]; [lia|].
  rewrite searchTitle_loop_shift in Hj.
  destruct j as [|j]; simpl.
  - congruence.
  - apply IH. lia.
Qed.

Lemma searchTitle_loop_missing str : forall title,
  ~ In str title -> searchTitle_loop title str 0 = List.length title.
Proof.
  induction title as [|t rest IH]; intros Hin; [reflexivity|].
  simpl. destruct (String.eqb_spec t str) as [E|E].
  - exfalso. apply Hin. now left.
  - rewrite searchTitle_loop_shift, IH; [reflexivity|].
    intros H. apply Hin. now right.
Qed.

(** X1.  [searchTitle] returns the position of the first title equal to
    the given text, and the number of titles when there is none. *)
Theorem X1_searchTitle_first_match (this : CSV) (str : string) :
  (searchTitle this str <= getColumnCount this)%nat
  /\ (In str (title_ this) ->
      (searchTitle this str < getColumnCount this)%nat
      /\ nth_error (title_ this) (searchTitle this str) = Some str)
  /\ (forall j, (j < searchTitle this str)%nat ->
        nth_error (title_ this) j <> Some str)
  /\ (~ In str (title_ this) -> searchTitle this str = getColumnCount this).
Proof.
  unfold searchTitle, getColumnCount. repeat split.
  - apply searchTitle_loop_bound.
  - apply nth_error_Some. rewrite searchTitle_loop_found by assumption.
    discriminate.
  - now apply searchTitle_loop_found.
  - apply searchTitle_loop_first.
  - apply searchTitle_loop_missing.
Qed.

Lemma X1_searchTitle_first_match_witness :
  searchTitle (mk_CSV settings_LF ["a"; "b"; "a"] []) "a" = 0%nat
  /\ searchTitle (mk_CSV settings_LF ["a"; "b"; "a"] []) "c" = 3%nat.
Proof.
  pose proof (X1_searchTitle_first_match
                (mk_CSV settings_LF ["a"; "b"; "a"] []) "c") as (_ & _ & _ & H).
  split; [reflexivity|].
  apply H. simpl. intros [E|[E|[E|[]]]]; discriminate.
Defined.

Lemma getColumn_loop_in_range column : forall values ret,
  Forall (fun row : list any => (column < List.length row)%nat) values ->
  getColumn_loop values column ret
  = Ok (ret ++ map (fun row => nth column row AnyOther) values)%list.
Proof.
  induction values as [|row rest IH]; intros ret HF; simpl.
  - now rewrite app_nil_r.
  - inversion HF as [|? ? Hlt HF']; subst.
    unfold vector_at. rewrite (nth_error_nth' row AnyOther Hlt). simpl.
    rewrite IH by assumption. now rewrite <- app_assoc.
Qed.

Lemma vector_at_beyond {A} (v : list A) n :
  (List.length v <= n)%nat -> vector_at v n = Throw out_of_range.
Proof.
  intros H. unfold vector_at.
  now rewrite (proj2 (nth_error_None v n) H).
Qed.

(** X2.  On a table that satisfies the row invariant, [getColumn] by
    position returns the cells of the column for a position below the
    number of titles, and the empty sequence for a position above it.  For
    the position equal to the number of titles the guard
    [column <= title_.size()] lets the loop run: [at] throws
    [std::out_of_range] as soon as there is a row, and the result is empty
    only for a table without rows. *)
Theorem X2_getColumn_by_position (this : CSV) (column : nat) :
  row_invariant this ->
  ((column < getColumnCount this)%nat ->
     getColumn this column
     = Ok (map (fun row => nth column row AnyOther) (values_ this)))
  /\ (column = getColumnCount this -> values_ this <> [] ->
        getColumn this column = Throw out_of_range)
  /\ (column = getColumnCount this -> values_ this = [] ->
        getColumn this column = Ok [])
  /\ ((getColumnCount this < column)%nat -> getColumn this column = Ok []).
Proof.
  intros Hinv. unfold row_invariant in Hinv.
  unfold getColumn, getColumnCount. repeat split.
  - intros Hlt. rewrite (proj2 (Nat.leb_le _ _)) by lia.
    apply getColumn_loop_in_range.
    eapply Forall_impl; [|exact Hinv]. simpl. intros row ->. exact Hlt.
  - intros -> Hne. rewrite Nat.leb_refl.
    destruct (values_ this) as [|row rest] eqn:E; [congruence|].
    inversion Hinv as [|? ? Hlen _]; subst. simpl.
    rewrite vector_at_beyond by lia. reflexivity.
  - intros -> ->. now rewrite Nat.leb_refl.
  - intros Hgt. now rewrite (proj2 (Nat.leb_gt _ _)) by lia.
Qed.

Lemma X2_getColumn_by_position_witness :
  getColumn example_AUTO_table 1 = Ok [Text "2"; Text "4"]
  /\ getColumn example_AUTO_table 2 = Throw out_of_range
  /\ getColumn example_AUTO_table 3 = Ok [].
Proof.
  assert (H : row_invariant example_AUTO_table) by (repeat constructor).
  split; [|split].
  - apply (X2_getColumn_by_position example_AUTO_table 1 H). cbv. lia.
  - apply (X2_getColumn_by_position example_AUTO_table 2 H);
      [reflexivity | discriminate].
  - apply (X2_getColumn_by_position example_AUTO_table 3 H). cbv. lia.
Defined.

(** X3.  On a table that satisfies the row invariant, [getColumn] by
    title returns the column under the first title equal to the name.  For
    a name that is no title, [searchTitle] yields the number of titles and
    [getColumn] throws [std::out_of_range] when the table has a row; it
    returns the empty sequence only when the table has no row. *)
Theorem X3_getColumn_by_title (this : CSV) (name : string) :
  row_invariant this ->
  (In name (title_ this) ->
     getColumn_by_title this name
     = Ok (map (fun row => nth (searchTitle this name) row AnyOther)
               (values_ this))
     /\ nth_error (title_ this) (searchTitle this name) = Some name)
  /\ (~ In name (title_ this) -> values_ this <> [] ->
        getColumn_by_title this name = Throw out_of_range)
  /\ (~ In name (title_ this) -> values_ this = [] ->
        getColumn_by_title this name = Ok []).
Proof.
  intros Hinv. unfold row_invariant in Hinv.
  unfold getColumn_by_title, getColumn, getColumnCount.
  pose proof (searchTitle_loop_bound name (title_ this)) as Hb.
  fold (searchTitle this name) in Hb.
  rewrite (proj2 (Nat.leb_le _ _)) by exact Hb.
  repeat split.
  - apply getColumn_loop_in_range.
    eapply Forall_impl; [|exact Hinv]. simpl. intros row ->.
    apply nth_error_Some. unfold searchTitle.
    rewrite searchTitle_loop_found by assumption. discriminate.
  - now apply searchTitle_loop_found.
  - intros Hno Hne. unfold searchTitle.
    rewrite searchTitle_loop_missing by assumption.
    destruct (values_ this) as [|row rest] eqn:E; [congruence|].
    inversion Hinv as [|? ? Hlen _]; subst. simpl.
    rewrite vector_at_beyond by lia. reflexivity.
  - intros _ ->. reflexivity.
Qed.

Lemma X3_getColumn_by_title_witness :
  getColumn_by_title example_AUTO_table "b" = Ok [Text "2"; Text "4"]
  /\ getColumn_by_title example_AUTO_table "c" = Throw out_of_range.
Proof.
  assert (H : row_invariant example_AUTO_table) by (repeat constructor).
  pose proof (X3_getColumn_by_title example_AUTO_table "b" H) as (Hb & _).
  pose proof (X3_getColumn_by_title example_AUTO_table "c" H) as (_ & Hc & _).
  split.
  - apply Hb. simpl. auto.
  - apply Hc; [|discriminate]. simpl. intros [E|[E|[]]]; discriminate.
Defined.

(** X4.  On a table that satisfies the row invariant, [getValue] returns
    the cell when the row is below the row count and the column below the
    number of titles, and throws [std::out_of_range] otherwise. *)
Theorem X4_getValue_bounds (this : CSV) (column row : nat) :
  row_invariant this ->
  ((row < getRowCount this)%nat -> (column < getColumnCount this)%nat ->
     exists line v,
       nth_error (values_ this) row = Some line
       /\ nth_error line column = Some v
       /\ getValue this column row = Ok v)
  /\ ((getRowCount this <= row)%nat \/ (getColumnCount this <= column)%nat ->
        getValue this column row = Throw out_of_range).
Proof.
  intros Hinv. unfold getValue, getRowCount, getColumnCount, vector_at. split.
  - intros Hr Hc.
    destruct (nth_error (values_ this) row) as [line|] eqn:El;
      [|apply nth_error_None in El; lia].
    assert (Hlen : List.length line = List.length (title_ this)).
    { eapply (proj1 (Forall_forall _ _) Hinv). eapply nth_error_In; eauto. }
    destruct (nth_error line column) as [v|] eqn:Ev;
      [|apply nth_error_None in Ev; lia].
    exists line, v. simpl. rewrite Ev. auto.
  - intros H.
    destruct (nth_error (values_ this) row) as [line|] eqn:El; simpl; auto.
    assert (Hlen : List.length line = List.length (title_ this)).
    { eapply (proj1 (Forall_forall _ _) Hinv). eapply nth_error_In; eauto. }
    destruct H as [H|H].
    + assert (nth_error (values_ this) row <> None) by congruence.
      apply nth_error_Some in H0. lia.
    + rewrite (proj2 (nth_error_None line column)) by lia. reflexivity.
Qed.

Lemma X4_getValue_bounds_witness :
  (exists line v,
     nth_error (values_ example_AUTO_table) 1 = Some line
     /\ nth_error line 0 = Some v
     /\ getValue example_AUTO_table 0 1 = Ok v)
  /\ getValue example_AUTO_table 2 0 = Throw out_of_range.
Proof.
  assert (H : row_invariant example_AUTO_table) by (repeat constructor).
  split.
  - apply (X4_getValue_bounds example_AUTO_table 0 1 H); cbv; lia.
  - apply (X4_getValue_bounds example_AUTO_table 2 0 H). right. cbv. lia.
Defined.

(** ** Adding and removing rows *)

Lemma remove_appended {A} (v : list A) (l : A) :
  (firstn (List.length v) (v ++ [l])
   ++ skipn (S (List.length v)) (v ++ [l]))%list = v.
Proof.
  rewrite firstn_app, firstn_all, Nat.sub_diag. simpl firstn.
  rewrite skipn_all2 by (rewrite length_app; simpl; lia).
  now rewrite !app_nil_r.
Qed.

(** X5.  [addRow] with as many values as there are titles appends the row
    at the end: the row count grows by one, the new row is the last one
    and the rows before it are untouched.  Removing the row at that
    position again gives back the table as it was. *)
Theorem X5_addRow_appends_and_removeRow_undoes (this : CSV) (l : list any) :
  List.length l = getColumnCount this ->
  fst (addRow this l) = Ok tt
  /\ getRowCount (snd (addRow this l)) = S (getRowCount this)
  /\ getRow (snd (addRow this l)) (getRowCount this) = Ok l
  /\ (forall i, (i < getRowCount this)%nat ->
        getRow (snd (addRow this l)) i = getRow this i)
  /\ title_ (snd (addRow this l)) = title_ this
  /\ removeRow (snd (addRow this l)) (getRowCount this) = (Ok tt, this).
Proof.
  unfold getColumnCount, getRowCount, getRow, vector_at. intros Hlen.
  assert (Hadd : addRow this l
                 = (Ok tt, mk_CSV (settings_ this) (title_ this)
                                  (values_ this ++ [l])%list)).
  { unfold addRow. now rewrite Hlen, Nat.eqb_refl. }
  rewrite Hadd. cbn [fst snd values_ title_ settings_].
  repeat split.
  - rewrite length_app. simpl. lia.
  - rewrite nth_error_app2, Nat.sub_diag by lia. reflexivity.
  - intros i Hi. now rewrite nth_error_app1.
  - unfold removeRow. cbn [values_ title_ settings_].
    rewrite (proj2 (Nat.leb_gt _ _)) by (rewrite length_app; simpl; lia).
    rewrite remove_appended. now destruct this.
Qed.

Lemma X5_addRow_appends_and_removeRow_undoes_witness :
  getRow (snd (addRow example_AUTO_table [Text "5"; Text "6"])) 2
    = Ok [Text "5"; Text "6"]
  /\ removeRow (snd (addRow example_AUTO_table [Text "5"; Text "6"])) 2
     = (Ok tt, example_AUTO_table).
Proof.
  pose proof (X5_addRow_appends_and_removeRow_undoes example_AUTO_table
                [Text "5"; Text "6"] eq_refl) as (_ & _ & Hg & _ & _ & Hr).
  split; [exact Hg | exact Hr].
Defined.

(** X6.  [removeRow] at a position below the row count removes exactly
    that row: the rows before it stay in place and the rows after it move
    up by one.  At any other position it throws and changes nothing. *)
Theorem X6_removeRow_one (this : CSV) (index : nat) :
  ((index < getRowCount this)%nat ->
     fst (removeRow this index) = Ok tt
     /\ S (getRowCount (snd (removeRow this index))) = getRowCount this
     /\ (forall i, (i < index)%nat ->
           getRow (snd (removeRow this index)) i = getRow this i)
     /\ (forall i, (index <= i)%nat ->
           getRow (snd (removeRow this index)) i = getRow this (S i))
     /\ title_ (snd (removeRow this index)) = title_ this)
  /\ ((getRowCount this <= index)%nat ->
        removeRow this index
        = (Throw (runtime_error "tabxx::CSV::removeRow(): Index out of range"),
           this)).
Proof.
  unfold getRowCount, getRow, vector_at, removeRow. split.
  - intros Hlt. rewrite (proj2 (Nat.leb_gt _ _)) by lia.
    cbn [fst snd values_ title_ settings_].
    repeat split.
    + rewrite length_app, length_firstn, length_skipn. lia.
    + intros i Hi.
      rewrite nth_error_app1 by (rewrite length_firstn; lia).
      rewrite nth_error_firstn. now rewrite (proj2 (Nat.ltb_lt _ _)) by lia.
    + intros i Hi.
      rewrite nth_error_app2 by (rewrite length_firstn; lia).
      rewrite length_firstn, nth_error_skipn.
      replace (S index + (i - Nat.min index (List.length (values_ this))))%nat
        with (S i) by lia.
      reflexivity.
  - intros Hge. now rewrite (proj2 (Nat.leb_le _ _)) by lia.
Qed.

Lemma X6_removeRow_one_witness :
  getRow (snd (removeRow example_AUTO_table 0)) 0 = Ok [Text "3"; Text "4"]
  /\ removeRow example_AUTO_table 2
     = (Throw (runtime_error "tabxx::CSV::removeRow(): Index out of range"),
        example_AUTO_table).
Proof.
  pose proof (X6_removeRow_one example_AUTO_table 0) as (H0 & _).
  pose proof (X6_removeRow_one example_AUTO_table 2) as (_ & H2).
  split.
  - destruct H0 as (_ & _ & _ & Hm & _); [cbv; lia|].
    rewrite (Hm 0%nat) by lia. reflexivity.
  - apply H2. cbv. lia.
Defined.

(** X7.  The range overload [removeRow(begin, end)] succeeds exactly when
    [begin <= end < row count]; it erases the rows at positions [begin] to
    [end - 1] and keeps the row at [end].  So the last row is never
    removed, the table keeps at least one row, and [begin = end] removes
    nothing.  In every other case it throws and changes nothing. *)
Theorem X7_removeRow_range (this : CSV) (begin end_ : nat) :
  ((begin <= end_)%nat -> (end_ < getRowCount this)%nat ->
     fst (removeRow_range this begin end_) = Ok tt
     /\ (getRowCount (snd (removeRow_range this begin end_))
         + (end_ - begin) = getRowCount this)%nat
     /\ (forall i, (i < begin)%nat ->
           getRow (snd (removeRow_range this begin end_)) i = getRow this i)
     /\ (forall i, (begin <= i)%nat ->
           getRow (snd (removeRow_range this begin end_)) i
           = getRow this (i + (end_ - begin)))
     /\ (1 <= getRowCount (snd (removeRow_range this begin end_)))%nat
     /\ getRow (snd (removeRow_range this begin end_))
               (getRowCount (snd (removeRow_range this begin end_)) - 1)
        = getRow this (getRowCount this - 1)
     /\ (begin = end_ -> snd (removeRow_range this begin end_) = this))
  /\ ((end_ < begin)%nat \/ (getRowCount this <= end_)%nat ->
        removeRow_range this begin end_
        = (Throw (runtime_error "tabxx::CSV::removeRow(): Invalid range"),
           this)).
Proof.
  unfold getRowCount, getRow, vector_at, removeRow_range. split.
  - intros Hle Hlt.
    rewrite (proj2 (Nat.leb_gt _ _)) by lia.
    rewrite (proj2 (Nat.leb_gt _ _)) by lia.
    rewrite (proj2 (Nat.ltb_ge _ _)) by lia. simpl.
    assert (Hcount :
      (List.length (firstn begin (values_ this) ++ skipn end_ (values_ this))
       + (end_ - begin) = List.length (values_ this))%nat).
    { rewrite length_app, length_firstn, length_skipn. lia. }
    assert (Hafter : forall i, (begin <= i)%nat ->
      nth_error (firstn begin (values_ this) ++ skipn end_ (values_ this)) i
      = nth_error (values_ this) (i + (end_ - begin))).
    { intros i Hi.
      rewrite nth_error_app2 by (rewrite length_firstn; lia).
      rewrite length_firstn, nth_error_skipn. f_equal. lia. }
    repeat split.
    + exact Hcount.
    + intros i Hi.
      rewrite nth_error_app1 by (rewrite length_firstn; lia).
      rewrite nth_error_firstn. now rewrite (proj2 (Nat.ltb_lt _ _)) by lia.
    + intros i Hi. now rewrite Hafter.
    + lia.
    + rewrite Hafter by lia.
      replace (List.length
                 (firstn begin (values_ this) ++ skipn end_ (values_ this))
               - 1 + (end_ - begin))%nat
        with (List.length (values_ this) - 1)%nat by lia.
      reflexivity.
    + intros ->. rewrite firstn_skipn. now destruct this.
  - intros H.
    destruct (Nat.leb_spec (List.length (values_ this)) begin); simpl; auto.
    destruct (Nat.leb_spec (List.length (values_ this)) end_); simpl; auto.
    destruct (Nat.ltb_spec end_ begin); simpl; auto. lia.
Qed.

Lemma X7_removeRow_range_witness :
  getRowCount (snd (removeRow_range example_AUTO_table 0 1)) = 1%nat
  /\ removeRow_range example_AUTO_table 0 2
     = (Throw (runtime_error "tabxx::CSV::removeRow(): Invalid range"),
        example_AUTO_table).
Proof.
  pose proof (X7_removeRow_range example_AUTO_table 0 1) as (H1 & _).
  pose proof (X7_removeRow_range example_AUTO_table 0 2) as (_ & H2).
  split.
  - destruct H1 as (_ & Hc & _); [lia | cbv; lia |].
    change (getRowCount example_AUTO_table) with 2%nat in Hc. lia.
  - apply H2. right. cbv. lia.
Defined.

(** ** The writer: byte count and failures *)

Lemma tracks_start des : tracks des (des, 0).
Proof. exists "". simpl. now rewrite append_nil_r. Qed.

Lemma tracks_put des str w : tracks des w -> tracks des (put str w).
Proof.
  intros (text & Hf & Hs). exists (text ++ str). unfold put; simpl.
  rewrite Hf, Hs, append_assoc. split; [reflexivity|].
  unfold size_add. rewrite Zplus_mod_idemp_l, length_append, Nat2Z.inj_add.
  reflexivity.
Qed.

Lemma tracks_put_ending this des w :
  tracks des w -> tracks des (put_ending this w).
Proof. unfold put_ending. destruct (is_LF _); apply tracks_put. Qed.

Lemma tracks_write_titles this des : forall title w,
  tracks des w -> tracks des (write_titles this title w).
Proof.
  induction title as [|t rest IH]; intros w Hw; [exact Hw|].
  destruct rest as [|t' rest']; [now apply tracks_put|].
  change (tracks des (write_titles this (t' :: rest')
                        (put_separator this (put t w)))).
  apply IH. unfold put_separator. now do 2 apply tracks_put.
Qed.

Lemma tracks_write_line this cell des : forall line w,
  tracks des w -> tracks des (snd (write_line this cell line w)).
Proof.
  induction line as [|v rest IH]; intros w Hw; [exact Hw|].
  simpl. destruct (cell v) as [str| | |]; try exact Hw.
  destruct rest as [|v' rest']; [now apply tracks_put|].
  apply IH. unfold put_separator. now do 2 apply tracks_put.
Qed.

Lemma tracks_write_rows this cell des : forall values w,
  tracks des w -> tracks des (snd (write_rows this cell values w)).
Proof.
  induction values as [|line rest IH]; intros w Hw; [exact Hw|].
  simpl. pose proof (tracks_write_line this cell des line w Hw) as Hl.
  destruct (write_line this cell line w) as [[[]| | |] w']; simpl in *;
    try exact Hl.
  apply IH. now apply tracks_put_ending.
Qed.

(** X8.  Whatever [write] does, the stream afterwards is the stream
    before followed by the text written; on a normal return the value
    returned is the number of bytes of that text (as a [std::size_t]).  A
    table without titles writes nothing and returns 0, rows or not. *)
Theorem X8_write_returns_bytes_written (this : CSV) (des : ostream) :
  (exists text,
     snd (write this des) = des ++ text
     /\ forall n, fst (write this des) = Ok n ->
          n = Z.of_nat (String.length text) mod (SIZE_MAX + 1))
  /\ (title_ this = [] -> write this des = (Ok 0, des)).
Proof.
  split.
  - unfold write. destruct (empty this); simpl negb; cbv iota.
    + exists "". simpl. rewrite append_nil_r. split; [reflexivity|].
      intros n H. now inversion H.
    + set (cell := if negb (auto_derive_type_ (settings_ this))
                   then any_cast_string else anyToString this).
      pose proof (tracks_write_rows this cell des (values_ this) _
                    (tracks_put_ending this des _
                       (tracks_write_titles this des (title_ this) _
                          (tracks_start des)))) as (text & Hf & Hs).
      destruct (write_rows this cell (values_ this) _) as [r [out ret]].
      simpl in Hf, Hs. exists text.
      destruct r; simpl; (split; [exact Hf|]); intros n H;
        try discriminate.
      injection H as Hn. rewrite <- Hn. exact Hs.
  - intros Ht. unfold write, empty. now rewrite Ht.
Qed.

Lemma X8_write_returns_bytes_written_witness :
  write (mk_CSV settings_LF [] [[Text "1"]]) "x" = (Ok 0, "x").
Proof.
  apply (X8_write_returns_bytes_written (mk_CSV settings_LF [] [[Text "1"]])
           "x").
  reflexivity.
Defined.

Lemma write_line_result this cell : forall line w,
  fst (write_line this cell line w)
  = bind (render cell line) (fun _ => Ok tt).
Proof.
  induction line as [|v rest IH]; intros w; [reflexivity|].
  simpl. destruct (cell v) as [str| | |]; try reflexivity. simpl.
  destruct rest as [|v' rest']; [reflexivity|].
  rewrite IH. destruct (render cell (v' :: rest')); reflexivity.
Qed.

Lemma write_rows_result this cell : forall values w,
  fst (write_rows this cell values w)
  = bind (render_rows cell values) (fun _ => Ok tt).
Proof.
  induction values as [|line rest IH]; intros w; [reflexivity|].
  simpl. pose proof (write_line_result this cell line w) as Hl.
  destruct (write_line this cell line w) as [r w']. simpl in Hl.
  destruct (render cell line) as [strs| | |]; simpl in Hl; subst r;
    try reflexivity.
  simpl. rewrite IH. destruct (render_rows cell rest); reflexivity.
Qed.

(** The outcome of [write] on a table with a title row is decided by the
    conversion of the cells, row by row. *)
Lemma write_ok_or_not this des :
  empty this = false ->
  match render_rows (cell_text this) (values_ this) with
  | Ok _ => exists n, fst (write this des) = Ok n
  | Throw e => fst (write this des) = Throw e
  | Undefined => fst (write this des) = Undefined
  | NoFuel => fst (write this des) = NoFuel
  end.
Proof.
  intros He. unfold write. rewrite He. simpl negb. cbv iota.
  fold (cell_text this).
  pose proof (write_rows_result this (cell_text this) (values_ this)
                (put_ending this
                   (write_titles this (title_ this) (des, 0)))) as Hr.
  destruct (write_rows this (cell_text this) (values_ this) _)
    as [r [out ret]]. simpl in Hr.
  destruct (render_rows (cell_text this) (values_ this)); simpl in Hr;
    subst r; simpl; eauto.
Qed.

Lemma render_cast : forall line,
  render any_cast_string line
  = if forallb is_string line
    then render any_cast_string line else Throw bad_any_cast.
Proof.
  induction line as [|v rest IH]; [reflexivity|].
  simpl. destruct v; simpl; try reflexivity.
  rewrite IH. destruct (forallb is_string rest); reflexivity.
Qed.

Lemma render_cast_ok : forall line,
  forallb is_string line = true ->
  exists strs, render any_cast_string line = Ok strs.
Proof.
  induction line as [|v rest IH]; intros H; [now exists []|].
  simpl in H. apply andb_prop in H as [Hv Hr].
  destruct v; try discriminate. destruct (IH Hr) as (strs & E).
  simpl. rewrite E. simpl. eauto.
Qed.

Lemma render_rows_cast : forall values,
  (forallb (forallb is_string) values = true ->
   exists lines, render_rows any_cast_string values = Ok lines)
  /\ (forallb (forallb is_string) values = false ->
      render_rows any_cast_string values = Throw bad_any_cast).
Proof.
  induction values as [|line rest [IHt IHf]]; simpl.
  - split; [now exists [] | discriminate].
  - rewrite render_cast. destruct (forallb is_string line) eqn:El; simpl.
    + destruct (render_cast_ok line El) as (strs & E). rewrite E. simpl.
      split; intros H.
      * destruct (IHt H) as (lines & E'). rewrite E'. simpl. eauto.
      * now rewrite (IHf H).
    + split; [discriminate | reflexivity].
Qed.

(** X9.  Without type inference [write] casts every cell to
    [std::string]: on a table with a title row it returns normally when
    every cell holds a string, and throws [std::bad_any_cast] as soon as
    one cell holds anything else. *)
Theorem X9_write_without_inference_needs_strings (this : CSV) (des : ostream) :
  auto_derive_type_ (settings_ this) = false ->
  empty this = false ->
  (forallb (forallb is_string) (values_ this) = true ->
     exists n, fst (write this des) = Ok n)
  /\ (forallb (forallb is_string) (values_ this) = false ->
        fst (write this des) = Throw bad_any_cast).
Proof.
  intros Hoff He. pose proof (write_ok_or_not this des He) as H.
  unfold cell_text in H. rewrite Hoff in H. simpl negb in H. cbv iota in H.
  destruct (render_rows_cast (values_ this)) as [Ht Hf]. split; intros Hb.
  - destruct (Ht Hb) as (lines & E). now rewrite E in H.
  - now rewrite (Hf Hb) in H.
Qed.

Lemma X9_write_without_inference_needs_strings_witness :
  fst (write example_mixed_table "") = Throw bad_any_cast.
Proof.
  apply (X9_write_without_inference_needs_strings example_mixed_table "");
    reflexivity.
Defined.

(** ** Type inference *)

Lemma take_digits_uint : forall d acc n,
  take_digits (NilEmpty.string_of_uint d) acc n
  = (digits_value d acc, (n + Decimal.nb_digits d)%nat, "").
Proof.
  induction d; intros acc n;
    cbn [NilEmpty.string_of_uint take_digits digits_value Decimal.nb_digits];
    [ now rewrite Nat.add_0_r | .. ];
    change (isdigit _) with true; cbv iota; rewrite IHd;
    (apply f_equal2;
     [ apply f_equal2; [f_equal; unfold digit_value; simpl; lia | lia]
     | reflexivity ]).
Qed.

Lemma digits_value_pos : forall d p,
  digits_value d (Z.pos p) = Z.pos (Pos.of_uint_acc d p).
Proof.
  induction d; intros p; cbn [digits_value Pos.of_uint_acc];
    [ reflexivity | .. ];
    rewrite <- IHd; f_equal; lia.
Qed.

Lemma digits_value_0 : forall d, digits_value d 0 = Z.of_uint d.
Proof.
  unfold Z.of_uint.
  induction d; cbn [digits_value Pos.of_uint];
    [ reflexivity | exact IHd | .. ];
    cbn [Z.of_N]; rewrite <- digits_value_pos; reflexivity.
Qed.

Lemma isdigit_head : forall d,
  d <> Decimal.Nil ->
  exists ch rest,
    NilEmpty.string_of_uint d = String ch rest /\ isdigit ch = true.
Proof.
  destruct d; intros H; [congruence | ..];
    cbn [NilEmpty.string_of_uint]; eexists _, _; split; reflexivity.
Qed.

Lemma isdigit_plain ch :
  isdigit ch = true ->
  isspace ch = false /\ Ascii.eqb ch "-" = false /\ Ascii.eqb ch "+" = false
  /\ Ascii.eqb ch dquote = false /\ Ascii.eqb ch "." = false.
Proof.
  destruct ch as [b0 b1 b2 b3 b4 b5 b6 b7].
  destruct b0, b1, b2, b3, b4, b5, b6, b7; vm_compute;
    intros H; try discriminate H; repeat split.
Qed.

Lemma numeric_scan_digits : forall d at_begin isFloat,
  numeric_scan (NilEmpty.string_of_uint d) at_begin isFloat = Some isFloat.
Proof.
  induction d; intros at_begin isFloat;
    cbn [NilEmpty.string_of_uint numeric_scan];
    [ reflexivity | .. ];
    change (isdigit _) with true; cbn [negb]; apply IHd.
Qed.

(** The decimal text of a positive number, read back by [stoll]. *)
Lemma stoll_digits d :
  d <> Decimal.Nil ->
  LLONG_MIN <= Z.of_uint d <= LLONG_MAX ->
  stoll (NilEmpty.string_of_uint d) = Ok (Z.of_uint d).
Proof.
  intros Hd Hr. destruct (isdigit_head d Hd) as (ch & rest & E & Hc).
  destruct (isdigit_plain ch Hc) as (Hs & Hm & Hp & _).
  unfold stoll. rewrite E. cbn [skip_space]. rewrite Hs.
  unfold take_sign. rewrite Hm, Hp. rewrite <- E.
  rewrite take_digits_uint, digits_value_0.
  assert (Hn : (0 + Decimal.nb_digits d =? 0)%nat = false).
  { apply Nat.eqb_neq. intros H0. apply Hd.
    now apply DecimalFacts.nb_digits_0. }
  rewrite Hn. cbv iota zeta.
  rewrite (proj2 (Z.leb_le _ _)) by apply Hr.
  rewrite (proj2 (Z.leb_le _ _)) by apply Hr.
  reflexivity.
Qed.

(** The same with a minus sign in front. *)
Lemma stoll_minus_digits d :
  d <> Decimal.Nil ->
  LLONG_MIN <= - Z.of_uint d <= LLONG_MAX ->
  stoll (String "-" (NilEmpty.string_of_uint d)) = Ok (- Z.of_uint d).
Proof.
  intros Hd Hr. unfold stoll. cbn [skip_space].
  change (isspace "-") with false. cbv iota.
  unfold take_sign. change (Ascii.eqb "-" "-") with true. cbv iota.
  rewrite take_digits_uint, digits_value_0.
  assert (Hn : (0 + Decimal.nb_digits d =? 0)%nat = false).
  { apply Nat.eqb_neq. intros H0. apply Hd.
    now apply DecimalFacts.nb_digits_0. }
  rewrite Hn. cbv iota zeta.
  rewrite (proj2 (Z.leb_le _ _)) by apply Hr.
  rewrite (proj2 (Z.leb_le _ _)) by apply Hr.
  reflexivity.
Qed.

Lemma to_string_pos p :
  to_string (Z.pos p) = NilEmpty.string_of_uint (Pos.to_uint p).
Proof.
  unfold to_string. cbn [Z.to_int NilZero.string_of_int].
  unfold NilZero.string_of_uint.
  pose proof (DecimalPos.Unsigned.to_uint_nonnil p) as H.
  destruct (Pos.to_uint p); [congruence | reflexivity ..].
Qed.

Lemma to_string_neg p :
  to_string (Z.neg p) = String "-" (NilEmpty.string_of_uint (Pos.to_uint p)).
Proof.
  unfold to_string. cbn [Z.to_int NilZero.string_of_int].
  unfold NilZero.string_of_uint.
  pose proof (DecimalPos.Unsigned.to_uint_nonnil p) as H.
  destruct (Pos.to_uint p); [congruence | reflexivity ..].
Qed.

Lemma of_uint_to_uint p : Z.of_uint (Pos.to_uint p) = Z.pos p.
Proof. unfold Z.of_uint. now rewrite DecimalPos.Unsigned.of_to. Qed.

(** [stoll] reads back what [to_string] prints. *)
Lemma stoll_to_string z :
  LLONG_MIN <= z <= LLONG_MAX -> stoll (to_string z) = Ok z.
Proof.
  intros Hr. destruct z as [|p|p].
  - reflexivity.
  - rewrite to_string_pos, stoll_digits, of_uint_to_uint;
      [reflexivity | apply DecimalPos.Unsigned.to_uint_nonnil
      | now rewrite of_uint_to_uint].
  - rewrite to_string_neg, stoll_minus_digits, of_uint_to_uint;
      [reflexivity | apply DecimalPos.Unsigned.to_uint_nonnil
      | now rewrite of_uint_to_uint].
Qed.

Lemma strip_quotes_plain ch rest :
  Ascii.eqb ch dquote = false ->
  strip_quotes (String ch rest) = Ok (String ch rest).
Proof. intros H. unfold strip_quotes, at_. simpl. now rewrite H. Qed.

Lemma detectType_to_string z :
  LLONG_MIN <= z <= LLONG_MAX -> detectType (to_string z) = Ok (Integer z).
Proof.
  intros Hr. pose proof (stoll_to_string z Hr) as Hs.
  unfold detectType. destruct z as [|p|p].
  - reflexivity.
  - rewrite to_string_pos in *.
    destruct (isdigit_head (Pos.to_uint p)
                (DecimalPos.Unsigned.to_uint_nonnil p))
      as (ch & rest & E & Hc).
    destruct (isdigit_plain ch Hc) as (_ & _ & _ & Hq & _).
    rewrite E at 1. rewrite strip_quotes_plain by exact Hq. rewrite <- E.
    cbn [bind]. rewrite numeric_scan_digits, Hs. reflexivity.
  - rewrite to_string_neg in *.
    rewrite strip_quotes_plain by reflexivity.
    cbn [bind numeric_scan]. change (isdigit "-") with false.
    cbn [negb]. change (Ascii.eqb "-" ".") with false.
    change (Ascii.eqb "-" "+") with false.
    change (Ascii.eqb "-" "-") with true. cbn [andb orb].
    rewrite numeric_scan_digits, Hs. reflexivity.
Qed.




Lemma get_last c r : forall s,
  String.get (String.length s) (s ++ String c r) = Some c.
Proof. induction s as [|ch s IH]; simpl; auto. Qed.

Lemma substring_prefix b : forall a,
  substring 0 (String.length a) (a ++ b) = a.
Proof.
  induction a as [|ch a IH]; simpl.
  - now destruct b.
  - now rewrite IH.
Qed.

Lemma substring_nothing : forall n s, substring n 0 s = "".
Proof.
  induction n as [|n IH]; intros s; destruct s; simpl; auto.
Qed.

Lemma substring_whole s : substring 0 (String.length s) s = s.
Proof.
  rewrite <- (append_nil_r s) at 2. apply substring_prefix.
Qed.

Lemma strip_quotes_quoted s : strip_quotes (quoted s) = Ok s.
Proof.
  unfold strip_quotes, quoted, at_, erase.
  cbn [String.get bind]. change (Ascii.eqb dquote dquote) with true.
  cbv iota. cbn [String.length]. rewrite length_append. cbn [String.length].
  replace (S (String.length s + 1) - 1)%nat with (S (String.length s)) by lia.
  cbn [String.get]. rewrite get_last. cbn [bind].
  change (Ascii.eqb dquote dquote) with true. cbv iota.
  rewrite (proj2 (Nat.ltb_ge _ _)) by lia.
  replace (S (String.length s + 1) - (S (String.length s) + 1))%nat
    with 0%nat by lia.
  rewrite substring_nothing, append_nil_r.
  cbn [substring]. rewrite substring_prefix. cbn [bind String.length].
  rewrite (proj2 (Nat.ltb_ge _ _)) by lia.
  cbn [substring Nat.add Nat.sub String.append].
  rewrite Nat.sub_0_r. now rewrite substring_whole.
Qed.

Lemma to_string_plain z : strip_quotes (to_string z) = Ok (to_string z).
Proof.
  destruct z as [|p|p].
  - reflexivity.
  - rewrite to_string_pos.
    destruct (isdigit_head _ (DecimalPos.Unsigned.to_uint_nonnil p))
      as (c & r & E & Hc).
    rewrite E. apply strip_quotes_plain.
    now destruct (isdigit_plain c Hc) as (_ & _ & _ & H & _).
  - rewrite to_string_neg. now apply strip_quotes_plain.
Qed.

(** X11.  One pair of enclosing double quotes is removed before the text
    is classified, so quotes do not keep a field from being inferred as a
    number: a quoted field that does not itself start with a quote is
    classified exactly like the unquoted field, and a quoted [long long]
    is an Integer. *)
Theorem X11_quotes_do_not_protect (ch : ascii) (rest : string) (z : Z) :
  ch <> dquote ->
  LLONG_MIN <= z <= LLONG_MAX ->
  strip_quotes (quoted (String ch rest)) = Ok (String ch rest)
  /\ detectType (quoted (String ch rest)) = detectType (String ch rest)
  /\ detectType (quoted (to_string z)) = Ok (Integer z).
Proof.
  intros Hq Hr. apply Ascii.eqb_neq in Hq.
  split; [apply strip_quotes_quoted|]. split.
  - unfold detectType.
    now rewrite strip_quotes_quoted, strip_quotes_plain.
  - pose proof (detectType_to_string z Hr) as Hd.
    unfold detectType in Hd |- *.
    rewrite to_string_plain in Hd. rewrite strip_quotes_quoted.
    exact Hd.
Qed.

Lemma X11_quotes_do_not_protect_witness :
  detectType (quoted "x1") = detectType "x1"
  /\ detectType (quoted (to_string 42)) = Ok (Integer 42).
Proof.
  pose proof (X11_quotes_do_not_protect "x" "1" 42) as (_ & H1 & H2).
  - discriminate.
  - vm_compute. split; discriminate.
  - split; [exact H1 | exact H2].
Defined.

Lemma stoll_outcome str :
  match stoll str with
  | Ok _ => True
  | Throw e => e = out_of_range \/ e = invalid_argument
  | _ => False
  end.
Proof.
  unfold stoll. destruct (take_sign _) as [neg s].
  destruct (take_digits s 0 0) as [[v n] r].
  destruct (n =? 0)%nat; simpl; auto.
  destruct (_ && _); simpl; auto.
Qed.

Lemma stod_outcome str :
  match stod str with
  | Ok _ => True
  | Throw e => e = out_of_range \/ e = invalid_argument
  | _ => False
  end.
Proof.
  unfold stod. destruct (take_sign _) as [neg s].
  destruct (take_digits s 0 0) as [[mi ni] r].
  destruct (match r with
            | "" => (mi, 0%nat, r)
            | String ch r' =>
                if Ascii.eqb ch "." then take_digits r' mi 0
                else (mi, 0%nat, r)
            end) as [[m nf] r2].
  destruct (ni + nf =? 0)%nat; simpl; auto.
  destruct (strtod_round neg m nf) as [x []]; simpl; auto.
Qed.

Lemma get_in_range : forall s n,
  (n < String.length s)%nat -> exists c, String.get n s = Some c.
Proof.
  induction s as [|ch s IH]; intros n Hn; simpl in Hn; [lia|].
  destruct n as [|n]; simpl; [eauto|]. apply IH. lia.
Qed.

Lemma erase_in_range s pos n :
  (pos <= String.length s)%nat -> exists r, erase s pos n = Ok r.
Proof.
  intros H. unfold erase. rewrite (proj2 (Nat.ltb_ge _ _)) by lia. eauto.
Qed.

Lemma strip_quotes_outcome str :
  match strip_quotes str with
  | Ok _ => str <> ""
  | Throw e => e = out_of_range /\ str = ""
  | _ => False
  end.
Proof.
  destruct str as [|ch rest]; [simpl; auto|].
  unfold strip_quotes.
  change (at_ (String ch rest) 0) with (@Ok ascii ch). cbn [bind].
  destruct (Ascii.eqb ch dquote); [|discriminate].
  destruct (get_in_range (String ch rest)
              (String.length (String ch rest) - 1)) as (last & El);
    [simpl; lia|].
  unfold at_. rewrite El. cbn [bind].
  destruct (Ascii.eqb last dquote); [|discriminate].
  destruct (erase_in_range (String ch rest)
              (String.length (String ch rest) - 1) 1) as (r1 & E1);
    [simpl; lia|].
  rewrite E1. cbn [bind].
  destruct (erase_in_range r1 0 1) as (r2 & E2); [lia|].
  rewrite E2. discriminate.
Qed.

Lemma detectType_outcome str :
  match detectType str with
  | Ok v => is_parsed_kind v = true /\ str <> ""
  | Throw e => e = out_of_range \/ e = invalid_argument
  | Undefined | NoFuel => False
  end.
Proof.
  unfold detectType. pose proof (strip_quotes_outcome str) as Hs.
  destruct (strip_quotes str) as [s| | |]; cbn [bind]; try contradiction.
  - destruct (numeric_scan s true false) as [[]|].
    + pose proof (stod_outcome s) as Hd.
      destruct (stod s); cbn [bind]; auto.
    + pose proof (stoll_outcome s) as Hl.
      destruct (stoll s); cbn [bind]; auto.
    + auto.
  - left. apply Hs.
Qed.

(** X12.  [detectType] ends in one of five ways: it returns a string, a
    [double] or a [long long], or it throws [std::out_of_range] or
    [std::invalid_argument].  The empty field always throws
    [std::out_of_range]; no other field fails in its quote test. *)
Theorem X12_detectType_outcomes (str : string) :
  match detectType str with
  | Ok v => is_parsed_kind v = true /\ str <> ""
  | Throw e => e = out_of_range \/ e = invalid_argument
  | Undefined | NoFuel => False
  end
  /\ detectType "" = Throw out_of_range
  /\ (str <> "" -> exists s, strip_quotes str = Ok s).
Proof.
  split; [apply detectType_outcome | split; [reflexivity|]].
  intros Hne. pose proof (strip_quotes_outcome str) as Hs.
  destruct (strip_quotes str) as [s| | |]; try contradiction; eauto.
  destruct Hs as [_ Hs]. contradiction.
Qed.

Lemma X12_detectType_outcomes_witness :
  exists s, strip_quotes (String dquote "") = Ok s.
Proof.
  apply (X12_detectType_outcomes (String dquote "")). discriminate.
Defined.

(** ** What [parse] stores *)

Lemma field_value_kind this f v :
  field_value this f = Ok v -> stored_kind this v = true.
Proof.
  unfold field_value, stored_kind.
  destruct (auto_derive_type_ (settings_ this)).
  - intros H. pose proof (detectType_outcome f) as Hk.
    rewrite H in Hk. apply Hk.
  - intros H. now inversion H.
Qed.

Lemma convert_kinds this : forall fields row,
  convert this fields = Ok row ->
  Forall (fun v => stored_kind this v = true) row.
Proof.
  induction fields as [|f rest IH]; intros row H; simpl in H.
  - inversion H. constructor.
  - destruct (field_value this f) as [v| | |] eqn:Ev; try discriminate.
    simpl in H.
    destruct (convert this rest) as [vs| | |]; try discriminate.
    inversion H; subst. constructor; [|now apply IH].
    eapply field_value_kind; eauto.
Qed.

Lemma parse_row_kinds this line row :
  parse_row (line_fuel line) this (istringstream line) [] = Ok row ->
  Forall (fun v => stored_kind this v = true) row.
Proof.
  rewrite parse_row_split by (unfold line_fuel; lia).
  destruct (convert this _) as [vs| | |] eqn:E; try discriminate.
  simpl. intros H; inversion H; subst. eapply convert_kinds; eauto.
Qed.

Lemma parse_rows_cells : forall fuel delim this src line,
  cells_invariant this ->
  cells_invariant (snd (fst (parse_rows fuel delim this src line))).
Proof.
  induction fuel as [|fuel IH]; intros delim this src line Hinv; [now simpl|].
  simpl. destruct (getline src line delim) as [src1 line1].
  destruct (std.empty line1).
  - destruct (negb (eof src1)); now simpl.
  - destruct (parse_row _ _ _ _) as [row| | |] eqn:Er; try (now simpl).
    destruct (negb (_ =? _)%nat); [now simpl|].
    assert (Hinv' : cells_invariant
              (mk_CSV (settings_ this) (title_ this) (values_ this ++ [row]))).
    { unfold cells_invariant in *; simpl. apply Forall_app. split; auto.
      constructor; [|constructor]. exact (parse_row_kinds _ _ _ Er). }
    destruct (eof _); [now simpl|]. now apply IH.
Qed.

Lemma parse_auto_settings fuel : forall this src line this' src' line',
  parse_auto fuel this src line = Some (this', src', line') ->
  same_but_ending (settings_ this) (settings_ this').
Proof.
  induction fuel as [|fuel IH]; intros this src line this' src' line' H.
  - discriminate.
  - simpl in H. destruct (negb (eof src)).
    + destruct (get src) as [i src1].
      destruct (Ascii.eqb (to_char i) cr).
      * inversion H; subst. repeat split.
      * destruct (Ascii.eqb (to_char i) nl).
        -- inversion H; subst. repeat split.
        -- eapply IH; eauto.
    + inversion H; subst. repeat split.
Qed.

Lemma detect_header_settings this src this' src' line :
  detect_header this src = Some (this', src', line) ->
  same_but_ending (settings_ this) (settings_ this').
Proof.
  unfold detect_header. destruct (is_AUTO _).
  - apply parse_auto_settings.
  - intros H; inversion H; subst. repeat split.
Qed.

(** [parse] changes nothing in the settings but the line ending, and
    every cell it leaves in the table is of a kind it stores. *)
Lemma parse_settings_and_cells this src :
  cells_invariant this ->
  same_but_ending (settings_ this) (settings_ (snd (fst (parse this src))))
  /\ cells_invariant (snd (fst (parse this src))).
Proof.
  intros Hinv. unfold parse.
  destruct (detect_header this src) as [[[this1 src1] line]|] eqn:Ed;
    [|split; [repeat split | exact Hinv]].
  pose proof (detect_header_settings _ _ _ _ _ Ed) as Hs.
  destruct (detect_header_table _ _ _ _ _ Ed) as [Ht Hv].
  destruct (std.empty line).
  - simpl. split; [exact Hs|].
    unfold cells_invariant, stored_kind in *. rewrite Hv.
    destruct Hs as (_ & <- & _). exact Hinv.
  - destruct (parse_titles _ _ _ _) as [title|].
    + split.
      * rewrite (proj1 (parse_rows_frame _ _ _ _ _)). exact Hs.
      * apply parse_rows_cells. constructor.
    + simpl. split; [exact Hs | constructor].
Qed.

Lemma cell_text_stored this v :
  stored_kind this v = true -> exists str, cell_text this v = Ok str.
Proof.
  unfold stored_kind, cell_text.
  destruct (auto_derive_type_ (settings_ this)); destruct v; simpl;
    intros H; try discriminate; eauto.
Qed.

Lemma render_stored this : forall line,
  Forall (fun v => stored_kind this v = true) line ->
  exists strs, render (cell_text this) line = Ok strs.
Proof.
  induction line as [|v rest IH]; intros HF; [now exists []|].
  inversion HF as [|? ? Hv HF']; subst.
  destruct (cell_text_stored this v Hv) as (str & Ev).
  destruct (IH HF') as (strs & Er).
  simpl. rewrite Ev. simpl. rewrite Er. simpl. eauto.
Qed.

Lemma render_rows_stored this : forall values,
  Forall (Forall (fun v => stored_kind this v = true)) values ->
  exists lines, render_rows (cell_text this) values = Ok lines.
Proof.
  induction values as [|line rest IH]; intros HF; [now exists []|].
  inversion HF as [|? ? Hl HF']; subst.
  destruct (render_stored this line Hl) as (strs & El).
  destruct (IH HF') as (lines & Er).
  simpl. rewrite El. simpl. rewrite Er. simpl. eauto.
Qed.

(** X13.  Whatever table parsing a string delivers, under any settings:
    its settings are the given ones up to the line ending; every row is as
    long as the title row; every cell holds a string (without type
    inference) or a string, a [double] or a [long long] (with it); and
    [write] on that table returns normally, it does not throw. *)
Theorem X13_parsed_table_is_writable
    (str : string) (s : Settings) (table : CSV) :
  parse_string str s = Ok table ->
  same_but_ending s (settings_ table)
  /\ row_invariant table
  /\ cells_invariant table
  /\ forall des, exists n, fst (write table des) = Ok n.
Proof.
  unfold parse_string, CSV_of_string, CSV_of_istream. intros H.
  pose proof (parse_settings_and_cells (CSV_new s) (istringstream str)
                ltac:(constructor)) as [Hs Hc].
  pose proof (parse_invariant (CSV_new s) (istringstream str)
                ltac:(constructor)) as Hr.
  destruct (parse (CSV_new s) (istringstream str)) as [[r c] src'].
  simpl in Hs, Hc, Hr.
  destruct r; simpl in H; try discriminate. inversion H; subst c.
  repeat split; try apply Hs; auto.
  intros des. destruct (empty table) eqn:He.
  - exists 0. unfold write. now rewrite He.
  - pose proof (write_ok_or_not table des He) as Hw.
    destruct (render_rows_stored table (values_ table) Hc) as (lines & E).
    now rewrite E in Hw.
Qed.

Lemma X13_parsed_table_is_writable_witness :
  exists n,
    fst (write (mk_CSV (mk_Settings LF "," true 1) ["a"; "b"]
                  [[Integer 1; Text "x"]]) "") = Ok n.
Proof.
  destruct (X13_parsed_table_is_writable
              ("a,b" ++ endl ++ "1,x" ++ endl) (mk_Settings AUTO "," true 1)
              (mk_CSV (mk_Settings LF "," true 1) ["a"; "b"]
                      [[Integer 1; Text "x"]]) eq_refl)
    as (_ & _ & _ & H).
  apply H.
Defined.

(** ** Reading a text line by line *)

(** One clean line followed by its terminator: the loop stores the row
    when it has as many fields as there are titles, and throws otherwise;
    either way the line and its terminator are consumed. *)
Lemma parse_rows_one_line this t l rest fuel line0 :
  t = cr \/ t = nl ->
  auto_derive_type_ (settings_ this) = false ->
  Ascii.eqb (separator_ (settings_ this)) t = false ->
  Forall (fun f => clean_for (separator_ (settings_ this)) t f = true) l ->
  join (separator_ (settings_ this)) l <> "" ->
  parse_rows (S fuel) t this
    (istringstream (join (separator_ (settings_ this)) l ++ term_of t ++ rest))
    line0
  = if (List.length l =? getColumnCount this)%nat then
      parse_rows fuel t
        (mk_CSV (settings_ this) (title_ this) (values_ this ++ [texts l])%list)
        (istringstream rest) line0
    else
      (Throw (runtime_error
                "tabxx::CSV::parse(std::istream&): Invalid Dataline"),
       this, istringstream rest).
Proof.
  intros Ht Hoff Hsep Hclean Hne.
  set (sep := separator_ (settings_ this)) in *.
  destruct (term_of_cons t Ht rest) as (tail & Etail & Eskip).
  rewrite Etail.
  assert (Hct : contains t (join sep l) = false).
  { apply contains_join; [exact Hsep|].
    eapply Forall_impl; [|exact Hclean]. intros f Hf.
    now apply clean_for_parts in Hf. }
  assert (Hl : l <> []) by (intros ->; now apply Hne).
  assert (Hrow : parse_row (line_fuel (join sep l)) this
                   (istringstream (join sep l)) [] = Ok (texts l)).
  { rewrite parse_row_split by (unfold line_fuel; lia). fold sep.
    rewrite split_join; auto.
    - rewrite convert_text by assumption. reflexivity.
    - eapply Forall_impl; [|exact Hclean]. intros f Hf.
      now apply clean_for_parts in Hf. }
  unfold istringstream at 1. unfold parse_rows; fold parse_rows.
  rewrite getline_good, until_clean_delim by exact Hct.
  destruct (join sep l) as [|ch jl] eqn:Ej; [congruence|].
  simpl std.empty. cbv iota. rewrite <- Ej in *.
  change (mk_istream tail false false) with (istringstream tail).
  rewrite Eskip, Hrow. unfold texts at 1. rewrite length_map.
  destruct (List.length l =? getColumnCount this)%nat; simpl negb; cbv iota;
    [|reflexivity].
  simpl eof. cbv iota. apply parse_rows_good_line.
Qed.

(** A run of clean rows, each with its terminator, is stored row by row;
    the loop goes on with what follows. *)
Lemma parse_rows_run t : t = cr \/ t = nl ->
  forall lines fuel this rest line0,
    auto_derive_type_ (settings_ this) = false ->
    Ascii.eqb (separator_ (settings_ this)) t = false ->
    Forall (clean_row_for (separator_ (settings_ this)) t
                          (List.length (title_ this))) lines ->
    parse_rows (List.length lines + fuel) t this
      (istringstream
         (lines_text (separator_ (settings_ this)) (term_of t) lines ++ rest))
      line0
    = parse_rows fuel t
        (mk_CSV (settings_ this) (title_ this)
                (values_ this ++ map texts lines)%list)
        (istringstream rest) line0.
Proof.
  intros Ht. induction lines as [|l more IH];
    intros fuel this rest line0 Hoff Hsep HF.
  - simpl. rewrite app_nil_r. now destruct this.
  - inversion HF as [|? ? (Hlen & Hclean & Hne) HF']; subst.
    cbn [List.length Nat.add lines_text]. rewrite !append_assoc.
    rewrite parse_rows_one_line by assumption.
    unfold getColumnCount. rewrite Hlen, Nat.eqb_refl.
    pose proof (IH fuel
                  (mk_CSV (settings_ this) (title_ this)
                          (values_ this ++ [texts l])%list) rest line0
                  Hoff Hsep HF') as Hrest.
    cbn [settings_ title_ values_] in Hrest. rewrite Hrest.
    cbn [map]. now rewrite <- app_assoc.
Qed.

(** In AUTO mode, on a text that starts with a readable title line and
    readable rows, [parse] is the data loop on what follows them, entered
    with the titles and those rows in the table. *)
Lemma parse_readable_prefix s t titles lines rest :
  auto_readable s t titles lines ->
  exists fuel,
    (2 <= fuel)%nat
    /\ parse (CSV_new s) (istringstream (text_for s t titles lines ++ rest))
       = parse_rows fuel t (table_for s t titles lines) (istringstream rest)
           (join (separator_ s) titles).
Proof.
  intros (Hauto & Hoff & Ht & Hcr & Hnl & Hlast & Htitles & Hlines).
  apply Ascii.eqb_neq in Hcr, Hnl.
  set (sep := separator_ s) in *.
  assert (Hhead_cr : contains cr (join sep titles) = false).
  { apply contains_join; [exact Hcr|].
    eapply Forall_impl; [|exact Htitles]. intros ti Hti.
    now apply clean_title_parts in Hti. }
  assert (Hhead_nl : contains nl (join sep titles) = false).
  { apply contains_join; [exact Hnl|].
    eapply Forall_impl; [|exact Htitles]. intros ti Hti.
    now apply clean_title_parts in Hti. }
  assert (Hsplit : drop_last_empty (split sep (join sep titles)) = titles).
  { rewrite split_join.
    - now apply drop_last_empty_id.
    - destruct titles; [now simpl in Hlast | discriminate].
    - eapply Forall_impl; [|exact Htitles]. intros ti Hti.
      now apply clean_title_parts in Hti. }
  assert (Hsep_t : Ascii.eqb sep t = false) by (destruct Ht; now subst).
  unfold text_for. fold sep. rewrite !append_assoc.
  destruct (term_of_cons t Ht
              (lines_text sep (term_of t) lines ++ rest))
    as (tail & Etail & Eskip).
  rewrite Etail.
  rewrite parse_auto_mode; auto using join_last_nonempty.
  change (separator_ (settings_ (CSV_new s))) with sep.
  rewrite Hsplit, Eskip.
  change (settings_ (fix_ending (CSV_new s) t))
    with (setEnding s (ending_for t)).
  pose proof (length_lines_text_term sep t Ht lines) as Hlen.
  set (F := stream_fuel
              (istringstream (lines_text sep (term_of t) lines ++ rest))).
  assert (HF : (List.length lines + 2 <= F)%nat).
  { unfold F, stream_fuel. simpl buf. rewrite length_append. lia. }
  exists (F - List.length lines)%nat. split; [lia|].
  replace F with (List.length lines + (F - List.length lines))%nat at 1
    by lia.
  pose proof (parse_rows_run t Ht lines (F - List.length lines)%nat
                (mk_CSV (setEnding s (ending_for t)) titles []) rest
                (join sep titles) Hoff Hsep_t Hlines) as Hrun.
  cbn [settings_ title_ values_ app] in Hrun.
  change (separator_ (setEnding s (ending_for t))) with sep in Hrun.
  exact Hrun.
Qed.

Lemma auto_readable_example_LF :
  auto_readable settings_AUTO nl ["a"; "b"] [["1"; "2"]; ["3"; ""]].
Proof.
  unfold auto_readable.
  split; [reflexivity|]. split; [reflexivity|]. split; [now right|].
  split; [discriminate|]. split; [discriminate|]. split; [discriminate|].
  split; [repeat constructor|]. repeat constructor; discriminate.
Qed.

Lemma parse_string_of_parse str s r this src :
  parse (CSV_new s) (istringstream str) = (r, this, src) ->
  parse_string str s
  = match r with
    | Ok _ => Ok this
    | Throw e => Throw e
    | Undefined => Undefined
    | NoFuel => NoFuel
    end.
Proof.
  intros H. unfold parse_string, CSV_of_string, CSV_of_istream.
  rewrite H. now destruct r.
Qed.

Lemma parse_readable_text s t titles lines :
  auto_readable s t titles lines ->
  parse_string (text_for s t titles lines) s = Ok (table_for s t titles lines).
Proof.
  intros Hr.
  destruct (parse_readable_prefix s t titles lines "" Hr) as (fuel & Hf & Hp).
  rewrite append_nil_r in Hp.
  destruct fuel as [|fuel]; [lia|].
  simpl in Hp. now rewrite (parse_string_of_parse _ _ _ _ _ Hp).
Qed.

(** X14.  In AUTO mode and without type inference, a text made of a title
    line and rows, each closed by the same terminator (LF, or CR LF),
    parses into exactly those titles and rows, with the line ending of the
    table fixed to the terminator found.  The conditions: the separator is
    neither CR nor LF; the last title is not empty; titles hold no
    separator, CR or LF; every row has as many fields as there are titles,
    its fields hold neither the separator nor the line delimiter, and its
    line is not empty. *)
Theorem X14_parse_AUTO_reads_text
    (s : Settings) (t : ascii) (titles : list string)
    (lines : list (list string)) :
  auto_readable s t titles lines ->
  parse_string (text_for s t titles lines) s = Ok (table_for s t titles lines).
Proof. apply parse_readable_text. Qed.

Lemma X14_parse_AUTO_reads_text_witness :
  parse_string (text_for settings_AUTO nl ["a"; "b"] [["1"; "2"]; ["3"; ""]])
               settings_AUTO
  = Ok (table_for settings_AUTO nl ["a"; "b"] [["1"; "2"]; ["3"; ""]]).
Proof.
  apply (X14_parse_AUTO_reads_text settings_AUTO nl ["a"; "b"]
           [["1"; "2"]; ["3"; ""]]).
  exact auto_readable_example_LF.
Defined.

(** X15.  A table of Text cells written in LF mode or in CRLF mode is
    read back exactly, settings included, when the text is parsed with the
    line ending set to AUTO (under the conditions on titles and cells of
    X14, for the line delimiter of the mode). *)
Theorem X15_explicit_write_then_AUTO_parse
    (s : Settings) (t : ascii) (titles : list string)
    (lines : list (list string)) :
  ending_ s = ending_for t ->
  auto_readable (setEnding s AUTO) t titles lines ->
  exists n out,
    write (mk_CSV s titles (map texts lines)) "" = (Ok n, out)
    /\ parse_string out (setEnding s AUTO)
       = Ok (mk_CSV s titles (map texts lines)).
Proof.
  intros Hend Hr. pose proof Hr as (_ & Hoff & Ht & _ & _ & Hlast & _).
  set (T := mk_CSV s titles (map texts lines)).
  assert (Hne : empty T = false).
  { unfold empty; simpl. destruct titles; [now simpl in Hlast | reflexivity]. }
  pose proof (write_render T "" lines Hne (Forall2_render_texts T lines Hoff))
    as Hw.
  assert (Htext : table_text T lines
                  = text_for (setEnding s AUTO) t titles lines).
  { unfold table_text, terminator, text_for. simpl. rewrite Hend.
    destruct Ht; subst t; reflexivity. }
  rewrite Htext in Hw. eexists _, _. split; [exact Hw|].
  simpl append. rewrite (parse_readable_text _ _ _ _ Hr).
  unfold table_for, T. destruct s as [e sep ad dp]. simpl in Hend. subst e.
  reflexivity.
Qed.

Lemma X15_explicit_write_then_AUTO_parse_witness :
  exists n out,
    write (mk_CSV settings_LF ["a"; "b"]
                  (map texts [["1"; "2"]; ["3"; ""]])) "" = (Ok n, out)
    /\ parse_string out (setEnding settings_LF AUTO)
       = Ok (mk_CSV settings_LF ["a"; "b"]
                    (map texts [["1"; "2"]; ["3"; ""]])).
Proof.
  apply (X15_explicit_write_then_AUTO_parse settings_LF nl ["a"; "b"]
           [["1"; "2"]; ["3"; ""]] eq_refl).
  exact auto_readable_example_LF.
Defined.

(** X16.  The terminator of the last line is optional: a text whose last
    row is not followed by a line end parses into the same table as the
    text with it (AUTO mode, conditions of X14). *)
Theorem X16_final_terminator_optional
    (s : Settings) (t : ascii) (titles : list string)
    (lines : list (list string)) (l : list string) :
  auto_readable s t titles (lines ++ [l]) ->
  parse_string (text_for s t titles lines ++ join (separator_ s) l) s
  = Ok (table_for s t titles (lines ++ [l])).
Proof.
  intros Hr.
  assert (Hr' : auto_readable s t titles lines).
  { destruct Hr as (H1 & H2 & H3 & H4 & H5 & H6 & H7 & H8).
    repeat split; auto. now apply Forall_app in H8 as [H8 _]. }
  destruct Hr as (_ & Hoff & Ht & Hcr & Hnl & _ & _ & Hlines).
  apply Forall_app in Hlines as [_ Hl].
  inversion Hl as [|? ? (Hlen & Hclean & Hne) _]; subst.
  apply Ascii.eqb_neq in Hcr, Hnl.
  set (sep := separator_ s) in *.
  assert (Hsep_t : Ascii.eqb sep t = false) by (destruct Ht; now subst).
  assert (Hct : contains t (join sep l) = false).
  { apply contains_join; [exact Hsep_t|].
    eapply Forall_impl; [|exact Hclean]. intros f Hf.
    now apply clean_for_parts in Hf. }
  assert (Hl0 : l <> []) by (intros ->; now apply Hne).
  assert (Hrow : parse_row (line_fuel (join sep l))
                   (table_for s t titles lines)
                   (istringstream (join sep l)) [] = Ok (texts l)).
  { rewrite parse_row_split by (unfold line_fuel; lia).
    change (separator_ (settings_ (table_for s t titles lines))) with sep.
    rewrite split_join; auto.
    - rewrite convert_text by exact Hoff. reflexivity.
    - eapply Forall_impl; [|exact Hclean]. intros f Hf.
      now apply clean_for_parts in Hf. }
  destruct (parse_readable_prefix s t titles lines (join sep l) Hr')
    as (fuel & Hf & Hp).
  destruct fuel as [|fuel]; [lia|].
  unfold istringstream in Hp at 2. unfold parse_rows in Hp; fold parse_rows in Hp.
  rewrite getline_good, (until_clean t _ Hct) in Hp.
  destruct (join sep l) as [|ch jl] eqn:Ej; [congruence|].
  simpl std.empty in Hp. cbv iota in Hp. rewrite <- Ej in *.
  rewrite Hrow in Hp. unfold texts in Hp at 1. rewrite length_map in Hp.
  unfold getColumnCount in Hp. cbn [title_ table_for] in Hp.
  rewrite Hlen, Nat.eqb_refl in Hp. simpl negb in Hp. cbv iota in Hp.
  assert (He : eof (skip_after_cr t (mk_istream "" true false)) = true)
    by (destruct Ht; subst; reflexivity).
  rewrite He in Hp.
  rewrite (parse_string_of_parse _ _ _ _ _ Hp).
  unfold table_for. cbn [settings_ values_]. now rewrite map_app.
Qed.

Lemma X16_final_terminator_optional_witness :
  parse_string (text_for settings_AUTO nl ["a"; "b"] [["1"; "2"]] ++ "3,")
               settings_AUTO
  = Ok (table_for settings_AUTO nl ["a"; "b"] [["1"; "2"]; ["3"; ""]]).
Proof.
  apply (X16_final_terminator_optional settings_AUTO nl ["a"; "b"]
           [["1"; "2"]] ["3"; ""]).
  exact auto_readable_example_LF.
Defined.

(** X17.  A blank line after the title line or after a row makes the
    parse throw the Empty Line error, whatever follows it, also when
    nothing follows: an extra line end at the very end of a text is not
    tolerated (AUTO mode, conditions of X14 on what precedes). *)
Theorem X17_blank_line_throws
    (s : Settings) (t : ascii) (titles : list string)
    (lines : list (list string)) (rest : string) :
  auto_readable s t titles lines ->
  parse_string (text_for s t titles lines ++ term_of t ++ rest) s
  = Throw (runtime_error
      "tabxx::CSV::parse(std::istream&): Invalid Dataline (Empty Line)").
Proof.
  intros Hr. pose proof Hr as (_ & _ & Ht & _).
  destruct (parse_readable_prefix s t titles lines (term_of t ++ rest) Hr)
    as (fuel & Hf & Hp).
  destruct fuel as [|fuel]; [lia|].
  destruct (term_of_cons t Ht rest) as (tail & Etail & _).
  rewrite Etail in Hp at 2.
  unfold istringstream in Hp at 2. unfold parse_rows in Hp; fold parse_rows in Hp.
  rewrite getline_good in Hp. cbn [until] in Hp.
  rewrite Ascii.eqb_refl in Hp. simpl in Hp.
  now rewrite (parse_string_of_parse _ _ _ _ _ Hp).
Qed.

Lemma X17_blank_line_throws_witness :
  parse_string (text_for settings_AUTO nl ["a"; "b"] [["1"; "2"]; ["3"; ""]]
                ++ term_of nl ++ "")
               settings_AUTO
  = Throw (runtime_error
      "tabxx::CSV::parse(std::istream&): Invalid Dataline (Empty Line)").
Proof.
  apply (X17_blank_line_throws settings_AUTO nl ["a"; "b"]
           [["1"; "2"]; ["3"; ""]] "").
  exact auto_readable_example_LF.
Defined.

(** X18.  A line with more or fewer fields than there are titles makes
    the parse throw the Invalid Dataline error, whatever follows it (AUTO
    mode, conditions of X14 on the title line and the rows before). *)
Theorem X18_wrong_field_count_throws
    (s : Settings) (t : ascii) (titles : list string)
    (lines : list (list string)) (l : list string) (rest : string) :
  auto_readable s t titles lines ->
  Forall (fun f => clean_for (separator_ s) t f = true) l ->
  join (separator_ s) l <> "" ->
  List.length l <> List.length titles ->
  parse_string (text_for s t titles lines
                ++ join (separator_ s) l ++ term_of t ++ rest) s
  = Throw (runtime_error "tabxx::CSV::parse(std::istream&): Invalid Dataline").
Proof.
  intros Hr Hclean Hne Hlen.
  pose proof Hr as (_ & Hoff & Ht & Hcr & Hnl & _).
  apply Ascii.eqb_neq in Hcr, Hnl.
  assert (Hsep_t : Ascii.eqb (separator_ s) t = false)
    by (destruct Ht; now subst).
  destruct (parse_readable_prefix s t titles lines
              (join (separator_ s) l ++ term_of t ++ rest) Hr)
    as (fuel & Hf & Hp).
  destruct fuel as [|fuel]; [lia|].
  pose proof (parse_rows_one_line (table_for s t titles lines) t l rest fuel
                (join (separator_ s) titles) Ht Hoff Hsep_t Hclean Hne)
    as Hone.
  assert (E : parse_rows (S fuel) t (table_for s t titles lines)
                (istringstream (join (separator_ s) l ++ term_of t ++ rest))
                (join (separator_ s) titles)
              = (Throw (runtime_error
                   "tabxx::CSV::parse(std::istream&): Invalid Dataline"),
                 table_for s t titles lines, istringstream rest)).
  { etransitivity; [exact Hone|].
    unfold getColumnCount. cbn [table_for title_].
    now rewrite (proj2 (Nat.eqb_neq _ _) Hlen). }
  rewrite E in Hp.
  now rewrite (parse_string_of_parse _ _ _ _ _ Hp).
Qed.

Lemma X18_wrong_field_count_throws_witness :
  parse_string (text_for settings_AUTO nl ["a"; "b"] []
                ++ join "," ["1"; "2"; "3"] ++ term_of nl ++ "")
               settings_AUTO
  = Throw (runtime_error "tabxx::CSV::parse(std::istream&): Invalid Dataline").
Proof.
  apply (X18_wrong_field_count_throws settings_AUTO nl ["a"; "b"] []
           ["1"; "2"; "3"] "").
  - unfold auto_readable.
    split; [reflexivity|]. split; [reflexivity|]. split; [now right|].
    split; [discriminate|]. split; [discriminate|]. split; [discriminate|].
    split; repeat constructor.
  - repeat constructor.
  - discriminate.
  - simpl. lia.
Defined.

(** ** Input without a line end, and streams that cannot be read *)

Lemma parse_auto_no_terminator this : forall p fuel line,
  contains cr p = false -> contains nl p = false ->
  (String.length p + 2 <= fuel)%nat ->
  parse_auto fuel this (istringstream p) line
  = Some (this, mk_istream "" true true, line ++ p ++ String eof_byte "").
Proof.
  induction p as [|ch p IH]; intros fuel line Hcr Hnl Hf.
  - destruct fuel as [|[|fuel]]; simpl in Hf; try lia. reflexivity.
  - destruct fuel as [|fuel]; [simpl in Hf; lia|].
    simpl in Hcr, Hnl, Hf.
    apply orb_false_elim in Hcr as [Hc1 Hc2].
    apply orb_false_elim in Hnl as [Hn1 Hn2].
    simpl. rewrite Hc1, Hn1.
    change (mk_istream p false false) with (istringstream p).
    rewrite IH by (auto; lia).
    unfold push_back. rewrite append_assoc. reflexivity.
Qed.

Lemma last_split_nonempty sep c : Ascii.eqb c sep = false ->
  forall p, last (split sep (p ++ String c "")) "" <> "".
Proof.
  intros Hc. induction p as [|ch p IH]; simpl.
  - rewrite Hc. simpl. discriminate.
  - destruct (Ascii.eqb ch sep).
    + destruct (split sep (p ++ String c "")) eqn:E;
        [now apply split_not_nil in E | exact IH].
    + destruct (split sep (p ++ String c "")) as [|f fs] eqn:E;
        [now apply split_not_nil in E|].
      destruct fs as [|g fs']; [simpl; discriminate | exact IH].
Qed.

(** X19.  In AUTO mode, a text without any CR or LF is not rejected: the
    scan runs into the end of the stream, the byte 255 that the failed
    [get()] yields is appended to the header line, and since the stream is
    then at its end the first [getline] of the data loop leaves [line]
    untouched, so that the header line is stored once more as the only
    row.  The line ending stays AUTO.  (Without type inference, separator
    other than byte 255.)  For the empty text the table has the single
    title and the single cell made of byte 255. *)
Theorem X19_AUTO_text_without_line_end (s : Settings) (p : string) :
  ending_ s = AUTO ->
  auto_derive_type_ s = false ->
  separator_ s <> eof_byte ->
  contains cr p = false ->
  contains nl p = false ->
  parse_string p s
  = Ok (mk_CSV s (split (separator_ s) (p ++ String eof_byte ""))
               [texts (split (separator_ s) (p ++ String eof_byte ""))]).
Proof.
  intros Hauto Hoff Hsep Hcr Hnl.
  assert (Hd : detect_header (CSV_new s) (istringstream p)
               = Some (CSV_new s, mk_istream "" true true,
                       p ++ String eof_byte "")).
  { unfold detect_header. cbn [settings_ CSV_new]. rewrite Hauto.
    simpl is_AUTO. cbv iota.
    now rewrite parse_auto_no_terminator
      by (auto; unfold stream_fuel; simpl; lia). }
  assert (Hdelim : delim_of (CSV_new s) = cr).
  { unfold delim_of. cbn [settings_ CSV_new]. now rewrite Hauto. }
  set (header := p ++ String eof_byte "") in *.
  assert (Hne : std.empty header = false).
  { unfold header. destruct p; reflexivity. }
  assert (Htitles : drop_last_empty (split (separator_ s) header)
                    = split (separator_ s) header).
  { apply drop_last_empty_id. apply last_split_nonempty.
    apply Ascii.eqb_neq. congruence. }
  assert (Hp : parse (CSV_new s) (istringstream p)
               = (Ok 0,
                  mk_CSV s (split (separator_ s) header)
                         [texts (split (separator_ s) header)],
                  mk_istream "" true true)).
  { unfold parse. rewrite Hd, Hdelim, Hne.
    rewrite parse_titles_split by (unfold line_fuel; lia).
    cbn [settings_ CSV_new]. rewrite Htitles.
    change (skip_after_cr cr (mk_istream "" true true))
      with (mk_istream "" true true).
    change (stream_fuel (mk_istream "" true true)) with 2%nat.
    unfold parse_rows. rewrite getline_at_eof, Hne.
    change (skip_after_cr cr (mk_istream "" true true))
      with (mk_istream "" true true).
    rewrite parse_row_split by (unfold line_fuel; lia).
    cbn [settings_]. rewrite convert_text by exact Hoff.
    cbn [bind app]. unfold getColumnCount. cbn [title_].
    rewrite length_map, Nat.eqb_refl. reflexivity. }
  now rewrite (parse_string_of_parse _ _ _ _ _ Hp).
Qed.

Lemma X19_AUTO_text_without_line_end_witness :
  parse_string "" settings_AUTO
  = Ok (mk_CSV settings_AUTO [String eof_byte ""]
               [[Text (String eof_byte "")]]).
Proof.
  apply (X19_AUTO_text_without_line_end settings_AUTO "");
    try reflexivity.
  discriminate.
Defined.

(** X20.  On a stream that is good or at its end, [parse] ends: it
    returns or throws, it does not loop and has no undefined behaviour.
    So does parsing any string under any settings. *)
Theorem X20_parse_ends (this : CSV) (src : istream) (str : string)
    (s : Settings) :
  (usable src -> defined (fst (fst (parse this src))))
  /\ defined (parse_string str s).
Proof.
  split; [apply parse_defined | apply parse_string_defined].
Qed.

Lemma X20_parse_ends_witness :
  defined (fst (fst (parse (CSV_new settings_AUTO)
                       (mk_istream "a,b" true false)))).
Proof.
  exact (proj1 (X20_parse_ends (CSV_new settings_AUTO)
                  (mk_istream "a,b" true false) "" settings_AUTO)
               (or_introl eq_refl)).
Defined.

(** X21.  On a stream whose [failbit] is set while [eofbit] is not (a
    file that could not be opened, say), the scan of the AUTO mode never
    ends: [src.get()] fails without ever raising [eofbit], so the loop
    [for (...; !src.eof(); )] goes on appending byte 255 to the header
    line.  No number of iterations completes the scan, and [parse] reaches
    no result. *)
Theorem X21_AUTO_scan_loops_on_failed_stream
    (this : CSV) (src : istream) (fuel : nat) (line : string) :
  ending_ (settings_ this) = AUTO ->
  eofbit src = false ->
  failbit src = true ->
  parse_auto fuel this src line = None
  /\ parse_auto (S fuel) this src line
     = parse_auto fuel this src (push_back line eof_byte)
  /\ parse this src = (NoFuel, this, src).
Proof.
  intros Hauto He Hf. split; [now apply parse_auto_diverges|]. split.
  - destruct src as [b e f]; simpl in He, Hf; subst e f. reflexivity.
  - unfold parse, detect_header. rewrite Hauto. simpl is_AUTO. cbv iota.
    now rewrite parse_auto_diverges.
Qed.

Lemma X21_AUTO_scan_loops_on_failed_stream_witness :
  parse_auto 1000 (CSV_new settings_AUTO) (mk_istream "a,b" false true) ""
  = None.
Proof.
  apply (X21_AUTO_scan_loops_on_failed_stream (CSV_new settings_AUTO)
           (mk_istream "a,b" false true) 1000 ""); reflexivity.
Defined.

(** X22.  With the line ending set to LF or CRLF, [parse] reads nothing:
    for every stream it returns -1 at once, leaving the stream and the
    table as they were, so that parsing any string under such settings
    (the default settings among them) delivers the empty table. *)
Theorem X22_explicit_ending_parses_nothing
    (this : CSV) (src : istream) (str : string) (s : Settings) :
  (ending_ (settings_ this) <> AUTO -> parse this src = (Ok (-1), this, src))
  /\ (ending_ s <> AUTO -> parse_string str s = Ok (CSV_new s))
  /\ parse_string str Settings_default = Ok (CSV_new Settings_default).
Proof.
  assert (H : forall e, e <> AUTO -> is_AUTO e = false)
    by (intros [] Hne; simpl; congruence).
  split; [|split].
  - intros Hne. apply parse_explicit_ending. now apply H.
  - intros Hne.
    apply (parse_string_of_parse str s (Ok (-1)) (CSV_new s)
             (istringstream str)).
    apply parse_explicit_ending. now apply H.
  - apply (parse_string_of_parse str Settings_default (Ok (-1))
             (CSV_new Settings_default) (istringstream str)).
    now apply parse_explicit_ending.
Qed.

Lemma X22_explicit_ending_parses_nothing_witness :
  parse_string example_LF_text (mk_Settings CRLF "," false 1)
  = Ok (CSV_new (mk_Settings CRLF "," false 1)).
Proof.
  apply (X22_explicit_ending_parses_nothing
           (CSV_new settings_LF) (istringstream "") example_LF_text
           (mk_Settings CRLF "," false 1)).
  discriminate.
Defined.

(** ** The two tokenizers on any line *)

Lemma length_drop_last_empty : forall fields,
  (List.length (drop_last_empty fields) <= List.length fields
   <= S (List.length (drop_last_empty fields)))%nat.
Proof.
  induction fields as [|f rest IH]; simpl; [lia|].
  destruct rest as [|g rest'].
  - destruct (std.empty f); simpl; lia.
  - simpl in *. lia.
Qed.

(** X23.  On every line, the header loop and the row loop cut at the
    same places, the occurrences of the separator.  The row loop (without
    type inference) stores every field as Text, so a row has one cell
    more than the line has separators; the header loop stores the same
    fields except for an empty field at the very end, so it yields as many
    titles as the row has cells, or one fewer. *)
Theorem X23_tokenizers_on_any_line (this : CSV) (line : string) :
  auto_derive_type_ (settings_ this) = false ->
  exists fields,
    parse_row (line_fuel line) this (istringstream line) []
      = Ok (texts fields)
    /\ parse_titles (line_fuel line) this (istringstream line) []
       = Some (drop_last_empty fields)
    /\ join (separator_ (settings_ this)) fields = line
    /\ Forall (fun f => contains (separator_ (settings_ this)) f = false)
              fields
    /\ List.length fields = S (count (separator_ (settings_ this)) line)
    /\ (List.length (drop_last_empty fields) <= List.length fields
        <= S (List.length (drop_last_empty fields)))%nat.
Proof.
  intros Hoff. exists (split (separator_ (settings_ this)) line).
  split; [|split; [|split; [|split; [|split]]]].
  - rewrite parse_row_split by (unfold line_fuel; lia).
    now rewrite convert_text.
  - now rewrite parse_titles_split by (unfold line_fuel; lia).
  - apply join_split.
  - apply split_clean_fields.
  - apply length_split.
  - apply length_drop_last_empty.
Qed.

Lemma X23_tokenizers_on_any_line_witness :
  exists fields,
    parse_row (line_fuel ",x,") (CSV_new settings_AUTO)
              (istringstream ",x,") [] = Ok (texts fields)
    /\ parse_titles (line_fuel ",x,") (CSV_new settings_AUTO)
                    (istringstream ",x,") [] = Some (drop_last_empty fields)
    /\ List.length fields = 3%nat.
Proof.
  destruct (X23_tokenizers_on_any_line (CSV_new settings_AUTO) ",x,"
              eq_refl) as (fields & Hr & Ht & _ & _ & Hl & _).
  exists fields. repeat split; assumption.
Defined.

(** ** Cells of a parsed table *)

(** X24.  In a table parsed without type inference every cell holds a
    [std::string]: [getValue<std::string>] succeeds at every position
    within the table, it never throws [std::bad_any_cast]. *)
Theorem X24_parsed_cells_are_strings
    (str : string) (s : Settings) (table : CSV) (column row : nat) :
  parse_string str s = Ok table ->
  auto_derive_type_ s = false ->
  (row < getRowCount table)%nat ->
  (column < getColumnCount table)%nat ->
  exists text,
    getValue table column row = Ok (Text text)
    /\ getValue_string table column row = Ok text.
Proof.
  intros Hp Hoff Hr Hc.
  unfold parse_string, CSV_of_string, CSV_of_istream in Hp.
  pose proof (parse_settings_and_cells (CSV_new s) (istringstream str)
                ltac:(constructor)) as [Hs Hcells].
  pose proof (parse_invariant (CSV_new s) (istringstream str)
                ltac:(constructor)) as Hinv.
  destruct (parse (CSV_new s) (istringstream str)) as [[r c] src'].
  simpl in Hs, Hcells, Hinv.
  destruct r; simpl in Hp; try discriminate. inversion Hp; subst c.
  unfold getRowCount, getColumnCount in *.
  destruct (nth_error (values_ table) row) as [line|] eqn:El;
    [|apply nth_error_None in El; lia].
  assert (Hin : In line (values_ table)) by (eapply nth_error_In; eauto).
  assert (Hlen : List.length line = List.length (title_ table))
    by (exact (proj1 (Forall_forall _ _) Hinv line Hin)).
  destruct (nth_error line column) as [v|] eqn:Ev;
    [|apply nth_error_None in Ev; lia].
  assert (Hv : stored_kind table v = true).
  { pose proof (proj1 (Forall_forall _ _) Hcells line Hin) as Hline.
    exact (proj1 (Forall_forall _ _) Hline v (nth_error_In _ _ Ev)). }
  unfold stored_kind in Hv. destruct Hs as (_ & Hsame & _).
  simpl in Hsame. rewrite <- Hsame, Hoff in Hv.
  destruct v; try discriminate Hv. exists s0.
  unfold getValue_string, getValue, vector_at. rewrite El. simpl.
  rewrite Ev. auto.
Qed.

Lemma X24_parsed_cells_are_strings_witness :
  exists text,
    getValue (table_for settings_AUTO nl ["a"; "b"] [["1"; "2"]; ["3"; ""]])
             1 1 = Ok (Text text)
    /\ getValue_string
         (table_for settings_AUTO nl ["a"; "b"] [["1"; "2"]; ["3"; ""]])
         1 1 = Ok text.
Proof.
  apply (X24_parsed_cells_are_strings
           (text_for settings_AUTO nl ["a"; "b"] [["1"; "2"]; ["3"; ""]])
           settings_AUTO
           (table_for settings_AUTO nl ["a"; "b"] [["1"; "2"]; ["3"; ""]])
           1 1).
  - reflexivity.
  - reflexivity.
  - cbv. lia.
  - cbv. lia.
Defined.

(** ** Float cells written without decimals *)

Lemma round_half_even_nonneg m e : 0 <= m -> 0 <= round_half_even m e.
Proof.
  intros Hm. unfold round_half_even.
  destruct (0 <=? e) eqn:Ee.
  - apply Z.mul_nonneg_nonneg; [exact Hm|]. apply Z.pow_nonneg. lia.
  - apply Z.leb_gt in Ee.
    assert (Hd : 0 < 2 ^ (- e)) by (apply Z.pow_pos_nonneg; lia).
    destruct (Z.div_eucl m (2 ^ (- e))) as [q r] eqn:E.
    assert (Hq : q = m / 2 ^ (- e)) by (unfold Z.div; now rewrite E).
    assert (0 <= q) by (subst q; apply Z.div_pos; lia).
    destruct (2 * r ?= 2 ^ (- e)); try lia.
    destruct (Z.even q); lia.
Qed.

Lemma to_string_not_empty z : (1 <= String.length (to_string z))%nat.
Proof.
  destruct z as [|p|p].
  - simpl. lia.
  - rewrite to_string_pos.
    destruct (isdigit_head _ (DecimalPos.Unsigned.to_uint_nonnil p))
      as (c & r & E & _).
    rewrite E. simpl. lia.
  - rewrite to_string_neg. simpl. lia.
Qed.

Lemma place_point_0 n : place_point 0 n = to_string n.
Proof.
  unfold place_point. cbn [Nat.eqb].
  pose proof (to_string_not_empty n) as H.
  replace (1 - String.length (to_string n))%nat with 0%nat by lia.
  reflexivity.
Qed.

Lemma detectType_minus_to_string n :
  0 <= n <= LLONG_MAX ->
  detectType (String "-" (to_string n)) = Ok (Integer (- n)).
Proof.
  intros Hn. destruct n as [|p|p]; [reflexivity | | lia].
  rewrite to_string_pos, <- to_string_neg.
  apply (detectType_to_string (Z.neg p)).
  unfold LLONG_MIN, LLONG_MAX in *. lia.
Qed.

(** X25.  With the precision set to 0, a Float cell does not come back as
    a Float: [anyToString] prints the nearest integer without a decimal
    point, and [detectType] reads that text as an Integer (of that nearest
    integer, ties to even). *)
Theorem X25_float_without_decimals_returns_as_integer
    (this : CSV) (sign : bool) (m : positive) (e : Z) :
  double_precision_ (settings_ this) = 0 ->
  round_half_even (Z.pos m) e <= LLONG_MAX ->
  bind (anyToString this (Float (S754_finite sign m e))) detectType
  = Ok (Integer (if sign then - round_half_even (Z.pos m) e
                 else round_half_even (Z.pos m) e)).
Proof.
  intros Hp Hmax. cbn [anyToString bind]. rewrite Hp.
  unfold fixed. cbn [Z.ltb Z.compare Z.to_nat Z.of_nat].
  change (10 ^ 0) with 1. rewrite Z.mul_1_r, place_point_0.
  pose proof (round_half_even_nonneg (Z.pos m) e ltac:(lia)) as Hn.
  destruct sign; cbn [sign_text String.append].
  - apply detectType_minus_to_string. lia.
  - apply detectType_to_string. unfold LLONG_MIN. lia.
Qed.

Lemma X25_float_without_decimals_returns_as_integer_witness :
  bind (anyToString (CSV_new (mk_Settings AUTO "," true 0))
          (Float double_12_5)) detectType
  = Ok (Integer 12).
Proof.
  apply (X25_float_without_decimals_returns_as_integer
           (CSV_new (mk_Settings AUTO "," true 0))
           false 7036874417766400 (-49)).
  - reflexivity.
  - vm_compute. discriminate.
Defined.

(** X26.  A table whose mode is still AUTO is read back from its own
    text: in AUTO mode, without type inference and with a
    separator that is neither CR nor LF, a table of Text cells is read
    back from what [write] produced for it, with the same titles and the
    same rows (and the mode fixed to CRLF), provided that: the last title
    is not empty; no title holds the separator, CR or LF; every row is as
    long as the title row; no cell holds the separator or CR; and no row
    is written as an empty line. *)
Theorem X26_AUTO_write_then_AUTO_parse
    (s : Settings) (titles : list string) (lines : list (list string)) :
  ending_ s = AUTO ->
  auto_derive_type_ s = false ->
  separator_ s <> cr ->
  separator_ s <> nl ->
  last titles "" <> "" ->
  Forall (fun t => clean_title (separator_ s) t = true) titles ->
  Forall (clean_row (separator_ s) (List.length titles)) lines ->
  exists n out parsed,
    write (mk_CSV s titles (map texts lines)) "" = (Ok n, out)
    /\ parse_string out s = Ok parsed
    /\ title_ parsed = titles
    /\ values_ parsed = map texts lines
    /\ settings_ parsed = setEnding s CRLF.
Proof.
  intros Hauto Hoff Hcr Hnl Hlast Htitles Hlines.
  apply Ascii.eqb_neq in Hcr, Hnl.
  set (T := mk_CSV s titles (map texts lines)).
  set (sep := separator_ s) in *.
  assert (Hne : empty T = false).
  { unfold empty; simpl. destruct titles; [now simpl in Hlast | reflexivity]. }
  pose proof (write_render T "" lines Hne (Forall2_render_texts T lines Hoff))
    as Hw.
  assert (Htext : table_text T lines
                  = join sep titles
                    ++ String cr (String nl (lines_text sep crlf lines))).
  { unfold table_text, terminator. simpl. rewrite Hauto. reflexivity. }
  rewrite Htext in Hw.
  assert (Hhead_cr : contains cr (join sep titles) = false).
  { apply contains_join; [exact Hcr|].
    eapply Forall_impl; [|exact Htitles]. intros t Ht.
    now apply clean_title_parts in Ht. }
  assert (Hhead_nl : contains nl (join sep titles) = false).
  { apply contains_join; [exact Hnl|].
    eapply Forall_impl; [|exact Htitles]. intros t Ht.
    now apply clean_title_parts in Ht. }
  assert (Hsplit : drop_last_empty (split sep (join sep titles)) = titles).
  { rewrite split_join.
    - now apply drop_last_empty_id.
    - destruct titles; [now simpl in Hlast | discriminate].
    - eapply Forall_impl; [|exact Htitles]. intros t Ht.
      now apply clean_title_parts in Ht. }
  assert (Hp : parse (CSV_new s)
                 (istringstream
                    (join sep titles
                     ++ String cr (String nl (lines_text sep crlf lines))))
               = (Ok 0, mk_CSV (setEnding s CRLF) titles (map texts lines),
                  mk_istream "" true true)).
  { rewrite parse_auto_mode; auto using join_last_nonempty.
    change (separator_ (settings_ (CSV_new s))) with sep. rewrite Hsplit.
    change (skip_after_cr cr
              (istringstream (String nl (lines_text sep crlf lines))))
      with (istringstream (lines_text sep crlf lines)).
    change (settings_ (fix_ending (CSV_new s) cr)) with (setEnding s CRLF).
    change sep with
      (separator_ (settings_ (mk_CSV (setEnding s CRLF) titles []))).
    rewrite parse_rows_lines; auto.
    unfold stream_fuel. simpl buf.
    pose proof (length_lines_text (separator_ s) (String nl "") lines) as H.
    fold crlf in H. simpl. lia. }
  eexists _, _, (mk_CSV (setEnding s CRLF) titles (map texts lines)).
  split; [exact Hw|].
  split; [|repeat split].
  unfold parse_string, CSV_of_string, CSV_of_istream.
  simpl append. rewrite Hp. reflexivity.
Qed.

Lemma X26_AUTO_write_then_AUTO_parse_witness :
  exists n out parsed,
    write (mk_CSV settings_AUTO ["a"; "b"]
                  (map texts [["1"; "2"]; ["3"; ""]])) "" = (Ok n, out)
    /\ parse_string out settings_AUTO = Ok parsed
    /\ title_ parsed = ["a"; "b"]
    /\ values_ parsed = map texts [["1"; "2"]; ["3"; ""]]
    /\ settings_ parsed = setEnding settings_AUTO CRLF.
Proof.
  apply (X26_AUTO_write_then_AUTO_parse settings_AUTO ["a"; "b"]
           [["1"; "2"]; ["3"; ""]]).
  - reflexivity.
  - reflexivity.
  - discriminate.
  - discriminate.
  - discriminate.
  - repeat constructor.
  - repeat constructor; discriminate.
Defined.
